(** * notion-survey-ai: the question / Notion-schema mapping layer

  A shallow embedding of the parts of the application that map survey
  questions to Notion database properties and back
  ([services/notionService.ts]), that key and encode a respondent's answers
  ([components/SurveyResponse.tsx]), and that keep local bookkeeping in the
  browser's [localStorage] ([services/storageService.ts],
  [services/emailHistoryService.ts]).

  Conventions of the embedding:
  - a JavaScript string is the list of its UTF-16 code units;
  - a JavaScript number is an IEEE-754 double, Rocq's primitive [float];
  - a JavaScript object used as a map is an association list in property
    creation order, with at most one entry per key;
  - [Math.random], [Date.now] and [new Date()] are read from explicit
    arguments, and state ([localStorage], the generator of random colours)
    is passed explicitly;
  - the application is configured ([isNotionConfigured()] holds), and the
    requests sent to the Notion proxy are outside the embedding: of each
    service function it is the data built for, or read from, the request
    that is embedded. *)

From Stdlib Require Import List Bool Arith NArith ZArith Lia.
From Stdlib Require Import Ascii String PrimFloat Decimal DecimalNat DecimalN.
From Stdlib Require Import Permutation Sorted.
Import ListNotations.

Set Implicit Arguments.

(* ================================================================== *)
(** * JavaScript data *)
(* ================================================================== *)

Module Js.

(** ** Strings *)

(** A string is a sequence of UTF-16 code units. *)
Definition jsstring := list N.

(** The string written by an ASCII literal. *)
Definition js (s : string) : jsstring :=
  List.map N_of_ascii (list_ascii_of_string s).

(** [a === b] on strings. *)
Fixpoint str_eqb (a b : jsstring) : bool :=
  match a, b with
  | [], [] => true
  | x :: a', y :: b' => N.eqb x y && str_eqb a' b'
  | _, _ => false
  end.

(** The decimal digits of a numeral, most significant first. *)
Fixpoint digits (d : Decimal.uint) : jsstring :=
  match d with
  | Nil => []
  | D0 d => 48%N :: digits d
  | D1 d => 49%N :: digits d
  | D2 d => 50%N :: digits d
  | D3 d => 51%N :: digits d
  | D4 d => 52%N :: digits d
  | D5 d => 53%N :: digits d
  | D6 d => 54%N :: digits d
  | D7 d => 55%N :: digits d
  | D8 d => 56%N :: digits d
  | D9 d => 57%N :: digits d
  end.

(** [`${n}`] for an array index or a length [n]: its decimal numeral. *)
Definition ToString_nat (n : nat) : jsstring := digits (Nat.to_uint n).

(** [`${n}`] for a non-negative integer below 10^21, such as the value of
    [Date.now()]. *)
Definition ToString_N (n : N) : jsstring := digits (N.to_uint n).

(** [s.replace(/c/g, d)] for single code units [c] and [d]. *)
Definition replaceAll (c d : N) (s : jsstring) : jsstring :=
  List.map (fun x => if N.eqb x c then d else x) s.

(** ** Objects used as maps *)

(** The own enumerable properties of an object, in the order
    [Object.entries] lists them.  The keys used by the application are not
    array indices, so this is the order of creation. *)
Definition Obj (V : Type) := list (jsstring * V).

Fixpoint get {V} (k : jsstring) (o : Obj V) : option V :=
  match o with
  | [] => None
  | (k', v) :: o' => if str_eqb k k' then Some v else get k o'
  end.

(** Creating or overwriting the own property [k]: an existing property
    keeps its place, a new one comes last. *)
Fixpoint set {V} (k : jsstring) (v : V) (o : Obj V) : Obj V :=
  match o with
  | [] => [(k, v)]
  | (k', v') :: o' =>
      if str_eqb k k' then (k, v) :: o' else (k', v') :: set k v o'
  end.

Definition __proto__ : jsstring := js "__proto__".

(** [o[k] = v] where [v] is an object and [o] was made by an object
    literal: the key [__proto__] reaches the setter inherited from
    [Object.prototype], which replaces the prototype of [o] and creates no
    own property. *)
Definition assign {V} (k : jsstring) (v : V) (o : Obj V) : Obj V :=
  if str_eqb k __proto__ then o else set k v o.

Definition keys {V} (o : Obj V) : list jsstring := List.map fst o.

(** ** Values of type [any] *)

#[warnings="-register-all"] Inductive Value :=
| VUndefined
| VNull
| VBoolean (b : bool)
| VNumber (x : float)
| VString (s : jsstring)
| VArray (elements : list Value)
(** A [Date] object, represented by what its [toISOString()] returns;
    [None] is an invalid date, on which [toISOString] throws a
    [RangeError]. *)
| VDate (iso : option jsstring)
(** Any other object; what is neither a string, a number, an array nor
    a [Date] is treated alike wherever the application looks at a value. *)
| VObject (properties : list (jsstring * Value)).

End Js.

Import Js.

(* ================================================================== *)
(** * types.ts *)
(* ================================================================== *)

Inductive QuestionType :=
| TEXT
| PARAGRAPH_TEXT
| MULTIPLE_CHOICE
| CHECKBOX
| SCALE
| DATE
| TIME.

Record Question := {
  questionText : jsstring;
  type : QuestionType;
  options : option (list jsstring);   (* [options?: string[]] *)
  isRequired : bool
}.

(** A timestamp kept as a string, together with the number that
  [new Date(text).getTime()] makes of it ([None] is [NaN]). *)
Record DateString := {
  text : jsstring;
  getTime : option Z
}.

Record FormMetadata := {
  id : jsstring;
  title : jsstring;
  questionCount : nat;
  createdAt : DateString;
  responseData : option jsstring;
  analysisResult : option jsstring;
  editUrl : option jsstring;
  publishedUrl : option jsstring
}.

(** [EmailHistoryItem] of services/emailHistoryService.ts. *)
Record EmailHistoryItem := {
  email : jsstring;
  lastUsed : jsstring;
  frequency : nat
}.

(* ================================================================== *)
(** * services/notionService.ts *)
(* ================================================================== *)

Module NotionService.

(** ** Database property schemas *)

Record SelectOption := {
  name : jsstring;
  color : jsstring
}.

(** A property of a database schema: its [type] tag, with the
    configuration stored under the field of the same name. *)
Inductive NotionProperty :=
| RichText                                      (* { type: 'rich_text', rich_text: {} } *)
| Select (select_options : list SelectOption)   (* { type: 'select', select: { options } } *)
| MultiSelect (multi_select_options : list SelectOption)
| Number (format : jsstring)                    (* { type: 'number', number: { format } } *)
| Date                                          (* { type: 'date', date: {} } *)
| Title                                         (* { type: 'title', title: {} } *)
| CreatedTime                                   (* { type: 'created_time', created_time: {} } *)
| Email                                         (* { type: 'email', email: {} } *)
| OtherType (tag : jsstring).                   (* a property of any other type *)

(** ** Random colours *)

Definition colors : list jsstring :=
  [js "gray"; js "brown"; js "orange"; js "yellow"; js "green";
   js "blue"; js "purple"; js "pink"; js "red"].

(** The generator behind [Math.random]: [draw k] is what
    [Math.floor(Math.random() * n)] comes to, before reduction into
    [0 .. n-1], at the [k]-th call. *)
Record Random := {
  draw : nat -> nat;
  calls : nat
}.

Definition getRandomNotionColor (g : Random) : jsstring * Random :=
  (nth (draw g (calls g) mod List.length colors) colors (js "gray"),
   {| draw := draw g; calls := S (calls g) |}).

(** [opts.map(opt => ({ name: opt, color: getRandomNotionColor() }))] *)
Fixpoint colorOptions (opts : list jsstring) (g : Random)
  : list SelectOption * Random :=
  match opts with
  | [] => ([], g)
  | opt :: opts' =>
      let (c, g1) := getRandomNotionColor g in
      let (rest, g2) := colorOptions opts' g1 in
      ({| name := opt; color := c |} :: rest, g2)
  end.

(** [question.options || []] *)
Definition optionsOrEmpty (question : Question) : list jsstring :=
  match options question with
  | Some opts => opts
  | None => []
  end.

(** The [default] branch of the [switch] gives the same property as
    [TEXT]; no value of the enumeration reaches it. *)
Definition questionToNotionProperty (question : Question) (g : Random)
  : NotionProperty * Random :=
  match type question with
  | TEXT | PARAGRAPH_TEXT | TIME => (RichText, g)
  | MULTIPLE_CHOICE =>
      let (opts, g') := colorOptions (optionsOrEmpty question) g in
      (Select opts, g')
  | CHECKBOX =>
      let (opts, g') := colorOptions (optionsOrEmpty question) g in
      (MultiSelect opts, g')
  | SCALE => (Number (js "number"), g)
  | DATE => (Date, g)
  end.

(** ** createNotionSurveyDatabase: the [properties] of the request *)

Definition Response_ID : jsstring := js "Response ID".
Definition Submitted_At : jsstring := js "Submitted At".
Definition Email_key : jsstring := js "Email".

(** [`Q${index + 1}: ${question.questionText}`] *)
Definition propertyName (index : nat) (question : Question) : jsstring :=
  js "Q" ++ ToString_nat (index + 1) ++ js ": " ++ questionText question.

(** The body of [questions.forEach((question, index) => ...)], from
    position [index] on. *)
Fixpoint addQuestions (questions : list Question) (index : nat)
    (properties : Obj NotionProperty) (g : Random)
  : Obj NotionProperty * Random :=
  match questions with
  | [] => (properties, g)
  | question :: rest =>
      let (prop, g') := questionToNotionProperty question g in
      addQuestions rest (S index)
        (assign (propertyName index question) prop properties) g'
  end.

Definition createNotionSurveyDatabase_properties
    (questions : list Question) (g : Random)
  : Obj NotionProperty * Random :=
  addQuestions questions 0
    [(Response_ID, Title); (Submitted_At, CreatedTime); (Email_key, Email)]
    g.

(** ** getNotionDatabaseSchema: from [data.properties] to questions *)

Definition isDigit (c : N) : bool := ((48 <=? c) && (c <=? 57))%N.

(** The code units that [.] does not match: LF, CR, U+2028, U+2029. *)
Definition isLineTerminator (c : N) : bool :=
  ((c =? 10) || (c =? 13) || (c =? 8232) || (c =? 8233))%N.

(** What is left of a string after its longest prefix of digits. *)
Fixpoint dropDigits (s : jsstring) : jsstring :=
  match s with
  | c :: s' => if isDigit c then dropDigits s' else s
  | [] => []
  end.

(** [name.match(/^Q\d+: (.+)$/)]: the first capture group of the match,
    [None] when there is no match.  After [Q] the digits are taken
    greedily; nothing is gained by giving one back, since what follows a
    digit run must be a colon.  The group must reach the end of the
    string and hold at least one code unit and no line terminator. *)
Definition questionMatch (name : jsstring) : option jsstring :=
  match name with
  | q :: d :: rest =>
      if ((q =? 81)%N && isDigit d)%bool then
        match dropDigits rest with
        | colon :: space :: c :: group =>
            if ((colon =? 58)%N && (space =? 32)%N
                && forallb (fun x => negb (isLineTerminator x)) (c :: group))%bool
            then Some (c :: group)
            else None
        | _ => None
        end
      else None
  | _ => None
  end.

(** [name === 'Response ID' || name === 'Submitted At' || name === 'Email'] *)
Definition isSystemProperty (name : jsstring) : bool :=
  str_eqb name Response_ID || str_eqb name Submitted_At
  || str_eqb name Email_key.

(** [options.map((opt: any) => opt.name)] *)
Definition optionNames (opts : list SelectOption) : list jsstring :=
  List.map name opts.

(** The question pushed for a property that is not skipped. *)
Definition questionOfProperty (name : jsstring) (prop : NotionProperty)
  : Question :=
  let questionText :=
    match questionMatch name with
    | Some group => group
    | None => name
    end in
  let '(type, options) :=
    match prop with
    | RichText => (TEXT, [])
    | Select opts => (MULTIPLE_CHOICE, optionNames opts)
    | MultiSelect opts => (CHECKBOX, optionNames opts)
    | Number _ => (SCALE, [])
    | Date => (DATE, [])
    | Title | CreatedTime | Email | OtherType _ => (TEXT, [])
    end in
  {| questionText := questionText;
     type := type;
     options := Some options;
     isRequired := false |}.

(** [Object.entries(data.properties).forEach(...)], with [questions] the
    array pushed to. *)
Fixpoint collectQuestions (entries : Obj NotionProperty)
    (questions : list Question) : list Question :=
  match entries with
  | [] => questions
  | (name, prop) :: rest =>
      if isSystemProperty name then collectQuestions rest questions
      else collectQuestions rest (questions ++ [questionOfProperty name prop])
  end.

Definition getNotionDatabaseSchema_questions
    (properties : Obj NotionProperty) : list Question :=
  collectQuestions properties [].

(** ** submitNotionResponse: the [properties] of the created page *)

(** The value stored under a property of the page. *)
Inductive PropertyValue :=
| TitleValue (content : jsstring)        (* { title: [{ text: { content } }] } *)
| DateValue (start : jsstring)           (* { date: { start } } *)
| RichTextValue (content : jsstring)     (* { rich_text: [{ text: { content } }] } *)
| NumberValue (number : float)           (* { number } *)
| MultiSelectValue (names : list Value). (* { multi_select: [{ name }, ...] } *)

Inductive Outcome (A : Type) :=
| Returned (a : A)
| RangeError.       (* thrown by [toISOString] on an invalid date *)

Arguments RangeError {A}.

(** [Object.entries(responses).forEach(([key, value]) => ...)] *)
Fixpoint mapResponses (entries : Obj Value)
    (properties : Obj PropertyValue) : Outcome (Obj PropertyValue) :=
  match entries with
  | [] => Returned properties
  | (key, value) :: rest =>
      match value with
      | VString s =>
          mapResponses rest (assign key (RichTextValue s) properties)
      | VNumber x =>
          mapResponses rest (assign key (NumberValue x) properties)
      | VArray vs =>
          mapResponses rest (assign key (MultiSelectValue vs) properties)
      | VDate (Some iso) =>
          mapResponses rest (assign key (DateValue iso) properties)
      | VDate None => RangeError
      | VUndefined | VNull | VBoolean _ | VObject _ =>
          mapResponses rest properties
      end
  end.

(** [now] is the value of [Date.now()], [nowISO] that of
    [new Date().toISOString()]. *)
Definition submitNotionResponse_properties (now : N) (nowISO : jsstring)
    (responses : Obj Value) : Outcome (Obj PropertyValue) :=
  mapResponses responses
    [(Response_ID, TitleValue (js "Response-" ++ ToString_N now));
     (Submitted_At, DateValue nowISO)].

End NotionService.

(* ================================================================== *)
(** * components/SurveyResponse.tsx *)
(* ================================================================== *)

Module SurveyResponse.

(** [name.replace(/,/g, ';')] *)
Definition sanitizePropertyName (name : jsstring) : jsstring :=
  replaceAll 44 59 name.

(** [`Q${questionIndex + 1}: ${sanitizePropertyName(question.questionText)}`] *)
Definition responseKey (questionIndex : nat) (question : Question)
  : jsstring :=
  js "Q" ++ ToString_nat (questionIndex + 1) ++ js ": "
  ++ sanitizePropertyName (questionText question).

(** The state update of [handleInputChange]:
    [{ ...prev, [key]: value }].  [None] stands for the [TypeError] raised
    when [questions[questionIndex]] is undefined. *)
Definition handleInputChange (questions : list Question)
    (questionIndex : nat) (value : Value) (prev : Obj Value)
  : option (Obj Value) :=
  match nth_error questions questionIndex with
  | Some question => Some (set (responseKey questionIndex question) value prev)
  | None => None
  end.

End SurveyResponse.

(* ================================================================== *)
(** * The browser's localStorage *)
(* ================================================================== *)

Module LocalStorage.

(** A stored text, by what [JSON.parse] makes of it: a [SyntaxError], or
    a value, of the shape the application writes under that key. *)
Inductive Stored (A : Type) :=
| Unparseable (raw : jsstring)
| Json (value : A).

Arguments Unparseable {A}.

(** The items under the keys ['formulateAiForms'] and
    ['notion_survey_email_history']; [None] is a missing item, for which
    [getItem] returns [null]. *)
Record t := {
  formulateAiForms : option (Stored (list FormMetadata));
  notion_survey_email_history : option (Stored (list EmailHistoryItem))
}.

End LocalStorage.

(** [Array.prototype.sort(comparefn)].  The sort is stable, and an element
    moves behind another only when [comparefn] is positive on them; a
    [NaN] ([None]) counts as zero.  For a comparator that is a consistent
    ordering this is the array every conforming engine returns. *)
Module ArraySort.

Section Sort.
Variable A : Type.
Variable comparefn : A -> A -> option Z.

Definition comesAfter (a b : A) : bool :=
  match comparefn a b with
  | Some v => (0 <? v)%Z
  | None => false
  end.

Fixpoint insert (a : A) (sorted : list A) : list A :=
  match sorted with
  | [] => [a]
  | b :: sorted' =>
      if comesAfter a b then b :: insert a sorted' else a :: sorted
  end.

Definition sort (l : list A) : list A := fold_right insert [] l.

End Sort.

End ArraySort.

(* ================================================================== *)
(** * services/storageService.ts *)
(* ================================================================== *)

Module StorageService.

Import LocalStorage.

(** [localStorage.removeItem(STORAGE_KEY)] *)
Definition removeForms (s : LocalStorage.t) : LocalStorage.t :=
  {| formulateAiForms := None;
     notion_survey_email_history := notion_survey_email_history s |}.

(** [localStorage.setItem(STORAGE_KEY, JSON.stringify(forms))] *)
Definition setForms (forms : list FormMetadata) (s : LocalStorage.t)
  : LocalStorage.t :=
  {| formulateAiForms := Some (Json forms);
     notion_survey_email_history := notion_survey_email_history s |}.

(** [(a, b) => new Date(b.createdAt).getTime() - new Date(a.createdAt).getTime()] *)
Definition byCreatedAtDescending (a b : FormMetadata) : option Z :=
  match getTime (createdAt b), getTime (createdAt a) with
  | Some tb, Some ta => Some (tb - ta)%Z
  | _, _ => None
  end.

(** The empty string is falsy: it is neither parsed nor removed. *)
Definition getFormsMetadata (s : LocalStorage.t)
  : list FormMetadata * LocalStorage.t :=
  match formulateAiForms s with
  | Some (Json forms) => (ArraySort.sort byCreatedAtDescending forms, s)
  | Some (Unparseable []) => ([], s)
  | Some (Unparseable (_ :: _)) => ([], removeForms s)
  | None => ([], s)
  end.

Definition saveFormMetadata (newForm : FormMetadata) (s : LocalStorage.t)
  : LocalStorage.t :=
  let (existingForms, s1) := getFormsMetadata s in
  let updatedForms :=
    newForm
    :: filter (fun f => negb (str_eqb (id f) (id newForm))) existingForms in
  setForms updatedForms s1.

End StorageService.

(* ================================================================== *)
(** * services/emailHistoryService.ts *)
(* ================================================================== *)

Module EmailHistoryService.

Import LocalStorage.

(** Whatever is stored, the function only reads: a parse error is logged
    and the item stays. *)
Definition getEmailHistory (s : LocalStorage.t)
  : list EmailHistoryItem * LocalStorage.t :=
  match notion_survey_email_history s with
  | Some (Json history) => (history, s)
  | Some (Unparseable _) => ([], s)
  | None => ([], s)
  end.

End EmailHistoryService.

(* ================================================================== *)
(** * Array operations *)
(* ================================================================== *)

Module JsArray.

(** [array.findIndex(p)]; [None] stands for -1. *)
Fixpoint findIndex {A} (p : A -> bool) (l : list A) : option nat :=
  match l with
  | [] => None
  | a :: l' => if p a then Some 0 else option_map S (findIndex p l')
  end.

(** The array after [array[i] = f(array[i])], for an index within the
    array. *)
Fixpoint adjust {A} (f : A -> A) (i : nat) (l : list A) : list A :=
  match l, i with
  | [], _ => []
  | a :: l', 0 => f a :: l'
  | a :: l', S i' => a :: adjust f i' l'
  end.

(** [s.slice(start, stop)] for [0 <= start <= stop]. *)
Definition slice {A} (start stop : nat) (l : list A) : list A :=
  firstn (stop - start) (skipn start l).

Arguments slice {A} start stop l : simpl never.

(** [parts.join(separator)] *)
Fixpoint join (separator : jsstring) (parts : list jsstring) : jsstring :=
  match parts with
  | [] => []
  | [part] => part
  | part :: parts' => part ++ separator ++ join separator parts'
  end.

End JsArray.

(* ================================================================== *)
(** * services/storageService.ts: analyses and recent e-mails *)
(* ================================================================== *)

Module FormAnalysis.

Import LocalStorage StorageService JsArray.

(** The form after [form.responseData = responseData] and
    [form.analysisResult = analysisResult]. *)
Definition withAnalysis (responseData analysisResult : jsstring)
    (form : FormMetadata) : FormMetadata :=
  {| id := id form;
     title := title form;
     questionCount := questionCount form;
     createdAt := createdAt form;
     responseData := Some responseData;
     analysisResult := Some analysisResult;
     editUrl := editUrl form;
     publishedUrl := publishedUrl form |}.

Definition updateFormAnalysis (formId responseData analysisResult : jsstring)
    (s : LocalStorage.t) : LocalStorage.t :=
  let (forms, s1) := getFormsMetadata s in
  match findIndex (fun f => str_eqb (id f) formId) forms with
  | Some formIndex =>
      setForms (adjust (withAnalysis responseData analysisResult)
                  formIndex forms) s1
  | None => s1
  end.

End FormAnalysis.

Module RecentEmails.

Import LocalStorage JsArray.

(** The item under the key ['formulateAiRecentEmails'], the only one these
    functions touch. *)
Definition Item := option (Stored (list jsstring)).

(** Nothing is removed when the item does not parse. *)
Definition getRecentEmails (item : Item) : list jsstring :=
  match item with
  | Some (Json emails) => emails
  | Some (Unparseable _) => []
  | None => []
  end.

Section CaseFolding.

(** [String.prototype.toLowerCase] *)
Variable toLowerCase : jsstring -> jsstring.

(** [e.toLowerCase() !== email.toLowerCase()] *)
Definition differsFrom (email e : jsstring) : bool :=
  negb (str_eqb (toLowerCase e) (toLowerCase email)).

(** [!email || !email.includes('@')] *)
Definition isRejected (email : jsstring) : bool :=
  match email with
  | [] => true
  | _ => negb (existsb (N.eqb 64) email)
  end.

Definition addRecentEmail (email : jsstring) (item : Item) : Item :=
  if isRejected email then item
  else
    let emails := getRecentEmails item in
    let filtered := filter (differsFrom email) emails in
    let limited := slice 0 10 (email :: filtered) in
    Some (Json limited).

Definition removeRecentEmail (email : jsstring) (item : Item) : Item :=
  let emails := getRecentEmails item in
  let filtered := filter (differsFrom email) emails in
  Some (Json filtered).

End CaseFolding.

End RecentEmails.

(* ================================================================== *)
(** * services/emailHistoryService.ts: recording and ranking *)
(* ================================================================== *)

Module EmailHistory.

Import LocalStorage EmailHistoryService JsArray.

Definition MAX_EMAIL_HISTORY : nat := 10.

(** [localStorage.setItem(EMAIL_HISTORY_KEY, JSON.stringify(history))] *)
Definition setHistory (history : list EmailHistoryItem) (s : LocalStorage.t)
  : LocalStorage.t :=
  {| formulateAiForms := formulateAiForms s;
     notion_survey_email_history := Some (Json history) |}.

(** [frequency++] on a number that holds a whole count.  The number is a
    double: below 2^53 = 9007199254740992 the sum with one is exact; from
    there to 2^54 = 18014398509481984 the doubles are the even numbers, the
    sum lies halfway between two of them and is rounded to the one whose
    significand is even; from 2^54 on the sum is rounded back to the
    number itself. *)
Definition increment (count : nat) : nat :=
  let n := N.of_nat count in
  if (n <? 9007199254740992)%N then S count
  else if (n <? 18014398509481984)%N then
    if N.even (n / 2) then count else S (S count)
  else count.

(** The body of [emails.forEach(email => ...)]: the entry of a known
    address is used once more, a new address gets an entry at the end. *)
Definition recordEmail (now : jsstring) (history : list EmailHistoryItem)
    (address : jsstring) : list EmailHistoryItem :=
  match findIndex (fun h => str_eqb (email h) address) history with
  | Some existingIndex =>
      adjust (fun h => {| email := email h;
                          lastUsed := now;
                          frequency := increment (frequency h) |})
        existingIndex history
  | None =>
      history ++ [{| email := address; lastUsed := now; frequency := 1 |}]
  end.

Section Dates.

(** [timeOf text] is [new Date(text).getTime()], [None] for [NaN]. *)
Variable timeOf : jsstring -> option Z.

(** The comparator of the ranking: by frequency, then by last use. *)
Definition byFrequencyThenRecency (a b : EmailHistoryItem) : option Z :=
  if negb (frequency b =? frequency a) then
    Some (Z.of_nat (frequency b) - Z.of_nat (frequency a))%Z
  else
    match timeOf (lastUsed b), timeOf (lastUsed a) with
    | Some tb, Some ta => Some (tb - ta)%Z
    | _, _ => None
    end.

(** [now] is the value of [new Date().toISOString()]. *)
Definition saveEmailToHistory (now : jsstring) (emails : list jsstring)
    (s : LocalStorage.t) : LocalStorage.t :=
  let (history, s1) := getEmailHistory s in
  let history := fold_left (recordEmail now) emails history in
  let sorted := ArraySort.sort byFrequencyThenRecency history in
  let trimmed := slice 0 MAX_EMAIL_HISTORY sorted in
  setHistory trimmed s1.

End Dates.

(** [limit] is a count, 5 when the argument is left out. *)
Definition getFrequentEmails (limit : nat) (s : LocalStorage.t)
  : list jsstring :=
  let history := fst (getEmailHistory s) in
  map email (slice 0 limit history).

Definition clearEmailHistory (s : LocalStorage.t) : LocalStorage.t :=
  {| formulateAiForms := formulateAiForms s;
     notion_survey_email_history := None |}.

End EmailHistory.

(* ================================================================== *)
(** * services/notionService.ts: identifiers and the form page *)
(* ================================================================== *)

Module NotionPage.

Import JsArray.

(** [id.replace(/-/g, '')] *)
Definition formatNotionId (id : jsstring) : jsstring :=
  filter (fun c => negb (c =? 45)%N) id.

(** A block of the page, with the text it shows. *)
Inductive Block :=
| Heading1 (content : jsstring)
| Paragraph (content : jsstring)
| Divider
| Heading3 (content : jsstring)
| BulletedListItem (content : jsstring).

(** [`${question.type}`]: the members of the enumeration are the strings
    of their names. *)
Definition typeName (t : QuestionType) : jsstring :=
  match t with
  | TEXT => js "TEXT"
  | PARAGRAPH_TEXT => js "PARAGRAPH_TEXT"
  | MULTIPLE_CHOICE => js "MULTIPLE_CHOICE"
  | CHECKBOX => js "CHECKBOX"
  | SCALE => js "SCALE"
  | DATE => js "DATE"
  | TIME => js "TIME"
  end.

(** [`Question ${index + 1}: ${question.questionText}${question.isRequired ? ' *' : ''}`] *)
Definition questionHeading (index : nat) (question : Question) : jsstring :=
  js "Question " ++ ToString_nat (index + 1) ++ js ": "
  ++ questionText question
  ++ (if isRequired question then js " *" else []).

(** The list of options is shown when [question.options] is there and is
    not empty. *)
Definition optionsBlock (question : Question) : list Block :=
  match options question with
  | Some (opt :: opts) =>
      [BulletedListItem (js "Options: " ++ join (js ", ") (opt :: opts))]
  | Some [] | None => []
  end.

(** The blocks pushed for one question. *)
Definition questionBlocks (index : nat) (question : Question) : list Block :=
  [Heading3 (questionHeading index question)]
  ++ optionsBlock question
  ++ [Paragraph (js "Type: " ++ typeName (type question))].

(** The body of [questions.forEach((question, index) => ...)], from
    position [index] on, with [content] the array pushed to. *)
Fixpoint pushQuestions (questions : list Question) (index : nat)
    (content : list Block) : list Block :=
  match questions with
  | [] => content
  | question :: rest =>
      pushQuestions rest (S index) (content ++ questionBlocks index question)
  end.

(** The [children] of the page that [createNotionFormPage] asks for. *)
Definition createNotionFormPage_content (title : jsstring)
    (questions : list Question) : list Block :=
  pushQuestions questions 0
    [Heading1 title;
     Paragraph (js "Please fill out this survey form. Your responses will be recorded in our database.");
     Divider].

End NotionPage.

(* ================================================================== *)
(** * components/SurveyResponse.tsx: the respondent and the submission *)
(* ================================================================== *)

Module Respondent.

Import JsArray NotionService.

(** The code units that [\s] matches. *)
Definition isWhiteSpace (c : N) : bool :=
  ((c =? 9) || (c =? 10) || (c =? 11) || (c =? 12) || (c =? 13)
   || (c =? 32) || (c =? 160) || (c =? 5760)
   || ((8192 <=? c) && (c <=? 8202))
   || (c =? 8232) || (c =? 8233) || (c =? 8239) || (c =? 8287)
   || (c =? 12288) || (c =? 65279))%N.

(** The class [[^\s@]]. *)
Definition isAddressChar (c : N) : bool :=
  negb (isWhiteSpace c) && negb (c =? 64)%N.

(** A string cut behind its longest prefix made of [[^\s@]]. *)
Fixpoint spanAddressChars (s : jsstring) : jsstring * jsstring :=
  match s with
  | c :: s' =>
      if isAddressChar c
      then let (run, rest) := spanAddressChars s' in (c :: run, rest)
      else ([], s)
  | [] => ([], [])
  end.

(** Whether a string has a dot that is neither its first nor its last
    code unit. *)
Definition hasInnerDot (s : jsstring) : bool :=
  match s with
  | [] => false
  | _ :: s' => existsb (fun c => (c =? 46)%N) (removelast s')
  end.

(** [/^[^\s@]+@[^\s@]+\.[^\s@]+$/.test(email)].  The first run is taken
    greedily and must stop at an at sign; what follows the at sign must
    all be of the class, the dot included, up to the end. *)
Definition validateEmail (email : jsstring) : bool :=
  match spanAddressChars email with
  | (_ :: _, at_sign :: domain) =>
      (at_sign =? 64)%N && forallb isAddressChar domain && hasInnerDot domain
  | _ => false
  end.

(** [phone.replace(/\D/g, '')] *)
Definition digitsOnly (phone : jsstring) : jsstring :=
  filter isDigit phone.

(** [/^01[0-9]\d{7,8}$/.test(normalized)] *)
Definition isMobileNumber (normalized : jsstring) : bool :=
  match normalized with
  | first :: second :: third :: rest =>
      (first =? 48)%N && (second =? 49)%N && isDigit third
      && forallb isDigit rest
      && ((List.length rest =? 7) || (List.length rest =? 8))
  | _ => false
  end.

Definition validatePhone (phone : jsstring) : bool :=
  let normalized := digitsOnly phone in
  isMobileNumber normalized.

Definition formatPhone (phone : jsstring) : jsstring :=
  let normalized := digitsOnly phone in
  if List.length normalized =? 10 then
    slice 0 3 normalized ++ js "-" ++ slice 3 6 normalized ++ js "-"
    ++ skipn 6 normalized
  else if List.length normalized =? 11 then
    slice 0 3 normalized ++ js "-" ++ slice 3 7 normalized ++ js "-"
    ++ skipn 7 normalized
  else phone.

End Respondent.

Module Submission.

Import Respondent.

(** [object.name] or [object[name]] for a name that no prototype
    defines: the value of the own property, [undefined] without one. *)
Definition property (name : jsstring) (object : Obj Value) : Value :=
  match get name object with
  | Some value => value
  | None => VUndefined
  end.

(** [key.startsWith('Q') && key.includes(':')] *)
Definition isQuestionKey (key : jsstring) : bool :=
  match key with
  | c :: _ => (c =? 81)%N && existsb (fun x => (x =? 58)%N) key
  | [] => false
  end.

(** [Object.keys(responses).forEach(key => ...)], with [finalResponses]
    the object assigned to. *)
Fixpoint copyAnswers (keys : list jsstring) (responses : Obj Value)
    (finalResponses : Obj Value) : Obj Value :=
  match keys with
  | [] => finalResponses
  | key :: rest =>
      copyAnswers rest responses
        (if isQuestionKey key
         then set key (property key responses) finalResponses
         else finalResponses)
  end.

(** The object that [handleSubmit] passes to [submitNotionResponse] once
    the respondent and the required answers have been checked.  [None]
    stands for the [TypeError] that [formatPhone] raises on what is not
    a string. *)
Definition finalResponses (responses : Obj Value) : option (Obj Value) :=
  let named :=
    set (js "Email") (property (js "respondentEmail") responses)
      (set (js "Name") (property (js "respondentName") responses) []) in
  match property (js "respondentPhone") responses with
  | VString phone =>
      Some (copyAnswers (keys responses) responses
              (set (js "Phone") (VString (formatPhone phone)) named))
  | _ => None
  end.

End Submission.

(* ================================================================== *)
(** * Vocabulary of the statements *)
(* ================================================================== *)

Import NotionService.

(** The questions of a list with their positions, counted from [index]. *)
Definition indexed (index : nat) (questions : list Question)
  : list (nat * Question) :=
  combine (seq index (List.length questions)) questions.

(** The three properties every schema starts with. *)
Definition systemProperties : Obj NotionProperty :=
  [(Response_ID, Title); (Submitted_At, CreatedTime); (Email_key, Email)].

(** An entry of the schema that stands for the question [iq]: it is named
    after the question and its position, and holds the property made from
    the question at some state of the random generator. *)
Definition entryOf (iq : nat * Question) (entry : jsstring * NotionProperty)
  : Prop :=
  fst entry = propertyName (fst iq) (snd iq) /\
  exists g, snd entry = fst (questionToNotionProperty (snd iq) g).

(** The values for which [submitNotionResponse] has a branch: strings,
    numbers, arrays and [Date] objects. *)
Definition isMapped (value : Value) : bool :=
  match value with
  | VString _ | VNumber _ | VArray _ | VDate _ => true
  | VUndefined | VNull | VBoolean _ | VObject _ => false
  end.

(** The property value written for an answer, when one is written. *)
Definition propertyValueOf (value : Value) : option PropertyValue :=
  match value with
  | VString s => Some (RichTextValue s)
  | VNumber x => Some (NumberValue x)
  | VArray vs => Some (MultiSelectValue vs)
  | VDate (Some iso) => Some (DateValue iso)
  | _ => None
  end.

Definition isString (value : Value) : bool :=
  match value with
  | VString _ => true
  | _ => false
  end.

(** The values the specification lists as the ones [encode] keeps: a
    string, a number, an array of strings, a [Date]. *)
Definition listedAsEncoded (value : Value) : bool :=
  match value with
  | VString _ | VNumber _ | VDate _ => true
  | VArray elements => forallb isString elements
  | VUndefined | VNull | VBoolean _ | VObject _ => false
  end.

(** The time at which a form was created, when [createdAt] is a date. *)
Definition createdAtTime (form : FormMetadata) : option Z :=
  getTime (createdAt form).

(** [a] was created at the same time as [b] or later, both times being
    known. *)
Definition notOlder (a b : FormMetadata) : Prop :=
  match createdAtTime a, createdAtTime b with
  | Some ta, Some tb => (tb <= ta)%Z
  | _, _ => False
  end.

(** [toLowerCase] on the strings made of ASCII characters. *)
Definition asciiLowerCase (s : jsstring) : jsstring :=
  map (fun c => if ((65 <=? c) && (c <=? 90))%N then (c + 32)%N else c) s.

(** The frequency recorded for an address, 0 when it has no entry. *)
Definition frequencyOf (address : jsstring) (history : list EmailHistoryItem)
  : nat :=
  match find (fun h => str_eqb (email h) address) history with
  | Some h => frequency h
  | None => 0
  end.

(** How many times an address occurs in a list of addresses. *)
Definition occurrences (address : jsstring) (emails : list jsstring) : nat :=
  List.length (filter (str_eqb address) emails).

(** The counts that a number reaches by steps of one without rounding:
    those up to 2^53. *)
Definition countedExactly (count : nat) : Prop :=
  (N.of_nat count <= 9007199254740992)%N.

(** [a] has been used at least as often as [b]. *)
Definition usedAtLeastAsOften (a b : EmailHistoryItem) : Prop :=
  frequency b <= frequency a.

(** The texts that can be read back from a property name: those that are
    not empty and hold no line terminator. *)
Definition textSurvives (text : jsstring) : bool :=
  match text with
  | [] => false
  | _ => forallb (fun c => negb (isLineTerminator c)) text
  end.

(** The question that comes back for the question at position [index]
    when the schema made for a survey is read. *)
Definition readBack (index : nat) (q : Question) : Question :=
  {| questionText :=
       if textSurvives (questionText q) then questionText q
       else propertyName index q;
     type :=
       match type q with
       | TEXT | PARAGRAPH_TEXT | TIME => TEXT
       | MULTIPLE_CHOICE => MULTIPLE_CHOICE
       | CHECKBOX => CHECKBOX
       | SCALE => SCALE
       | DATE => DATE
       end;
     options :=
       Some match type q with
            | MULTIPLE_CHOICE | CHECKBOX => optionsOrEmpty q
            | _ => []
            end;
     isRequired := false |}.

(** The questions that the round trip through a schema gives back
    unchanged. *)
Definition survivesRoundTrip (q : Question) : Prop :=
  textSurvives (questionText q) = true /\
  type q <> PARAGRAPH_TEXT /\ type q <> TIME /\
  isRequired q = false /\
  exists opts,
    options q = Some opts /\
    (type q <> MULTIPLE_CHOICE -> type q <> CHECKBOX -> opts = []).

Definition isHeading3 (block : NotionPage.Block) : bool :=
  match block with
  | NotionPage.Heading3 _ => true
  | _ => false
  end.

(** Whether the page shows a list of options for the question. *)
Definition hasOptions (q : Question) : bool :=
  match options q with
  | Some (_ :: _) => true
  | _ => false
  end.

(** What it is for a string to match [/^[^\s@]+@[^\s@]+\.[^\s@]+$/]: it
    is a name, an at sign, and a domain made of two parts with a dot
    between them, where the name and the two parts are not empty and hold
    neither white space nor an at sign. *)
Inductive matchesEmailPattern : jsstring -> Prop :=
| matches_email (name part1 part2 : jsstring) :
    name <> [] -> part1 <> [] -> part2 <> [] ->
    Forall (fun c => Respondent.isAddressChar c = true) name ->
    Forall (fun c => Respondent.isAddressChar c = true) part1 ->
    Forall (fun c => Respondent.isAddressChar c = true) part2 ->
    matchesEmailPattern (name ++ js "@" ++ part1 ++ js "." ++ part2).

Arguments matches_email : clear implicits.

(** What it is for a property name to match [/^Q\d+: (.+)$/] with
    [group] as its first capture group: the name is a [Q], one or more
    digits, a colon, a space, and the group, which is not empty and holds
    no line terminator. *)
Inductive matchesQuestionPattern : jsstring -> jsstring -> Prop :=
| matches_pattern (number group : jsstring) :
    number <> [] ->
    Forall (fun c => isDigit c = true) number ->
    group <> [] ->
    Forall (fun c => isLineTerminator c = false) group ->
    matchesQuestionPattern (js "Q" ++ number ++ js ": " ++ group) group.

Arguments matches_pattern : clear implicits.

(* ================================================================== *)
(** * Facts about strings and objects *)
(* ================================================================== *)

Lemma str_eqb_eq (a b : jsstring) : str_eqb a b = true <-> a = b.
Proof.
  revert b; induction a as [|x a IH]; intros [|y b]; simpl;
    try (split; [discriminate | discriminate]); try tauto.
  rewrite andb_true_iff, N.eqb_eq, IH.
  split; [intros [-> ->]; reflexivity | intros H; inversion H; auto].
Qed.

Lemma str_eqb_refl (a : jsstring) : str_eqb a a = true.
Proof. now apply str_eqb_eq. Qed.

Lemma str_eqb_neq (a b : jsstring) : a <> b <-> str_eqb a b = false.
Proof.
  rewrite <- not_true_iff_false, str_eqb_eq; tauto.
Qed.

Lemma digits_inj (d d' : Decimal.uint) : digits d = digits d' -> d = d'.
Proof.
  revert d'; induction d; intros []; simpl; intros H;
    try discriminate; try reflexivity;
    injection H as H; f_equal; auto.
Qed.

Lemma ToString_nat_inj (n m : nat) : ToString_nat n = ToString_nat m -> n = m.
Proof.
  unfold ToString_nat; intros H%digits_inj.
  rewrite <- (DecimalNat.Unsigned.of_to n), <- (DecimalNat.Unsigned.of_to m).
  now rewrite H.
Qed.

Lemma digits_isDigit (d : Decimal.uint) :
  Forall (fun c => isDigit c = true) (digits d).
Proof. induction d; simpl; constructor; auto. Qed.

(** A run of digits followed by a colon is read in only one way. *)
Lemma digit_run_unique (ds1 ds2 r1 r2 : jsstring) :
  Forall (fun c => isDigit c = true) ds1 ->
  Forall (fun c => isDigit c = true) ds2 ->
  ds1 ++ 58%N :: r1 = ds2 ++ 58%N :: r2 ->
  ds1 = ds2 /\ r1 = r2.
Proof.
  intros H1; revert ds2; induction H1 as [|c ds1 Hc _ IH];
    intros ds2 H2 E; destruct H2 as [|c' ds2 Hc' H2]; simpl in E.
  - now injection E.
  - injection E as <- _; discriminate.
  - injection E as -> _; discriminate.
  - injection E as -> E. destruct (IH _ H2 E) as [-> ->]; auto.
Qed.

(** The index can be read back from a property name. *)
Lemma propertyName_index (i j : nat) (q q' : Question) :
  propertyName i q = propertyName j q' ->
  i = j /\ questionText q = questionText q'.
Proof.
  unfold propertyName; simpl; intros E; injection E as E.
  apply digit_run_unique in E; try apply digits_isDigit.
  destruct E as [E1 E2]; apply ToString_nat_inj in E1.
  split; [lia | now injection E2].
Qed.

Lemma propertyName_not_system (i : nat) (q : Question) :
  isSystemProperty (propertyName i q) = false.
Proof. reflexivity. Qed.

Lemma propertyName_not_proto (i : nat) (q : Question) :
  str_eqb (propertyName i q) __proto__ = false.
Proof. reflexivity. Qed.

Section Objects.
Context {V : Type}.
Implicit Types (o : Obj V) (k : jsstring) (v : V).

Lemma get_set_same k v o : get k (set k v o) = Some v.
Proof.
  induction o as [|[k' v'] o IH]; simpl.
  - now rewrite str_eqb_refl.
  - destruct (str_eqb k k') eqn:E; simpl.
    + now rewrite str_eqb_refl.
    + now rewrite E.
Qed.

Lemma get_set_other k k' v o : k <> k' -> get k (set k' v o) = get k o.
Proof.
  intros Hne; induction o as [|[k0 v0] o IH]; simpl.
  - now apply str_eqb_neq in Hne as ->.
  - destruct (str_eqb k' k0) eqn:E; simpl.
    + apply str_eqb_eq in E as <-. now apply str_eqb_neq in Hne as ->.
    + now rewrite IH.
Qed.

(** A new property comes last. *)
Lemma set_fresh k v o : ~ In k (keys o) -> set k v o = o ++ [(k, v)].
Proof.
  induction o as [|[k' v'] o IH]; simpl; [reflexivity|].
  intros Hk. destruct (str_eqb k k') eqn:E.
  - apply str_eqb_eq in E; subst; tauto.
  - rewrite IH; [reflexivity | tauto].
Qed.

Lemma in_keys_set k k' v o : In k (keys (set k' v o)) <-> k = k' \/ In k (keys o).
Proof.
  induction o as [|[k0 v0] o IH]; simpl.
  - intuition.
  - destruct (str_eqb k' k0) eqn:E; simpl.
    + apply str_eqb_eq in E as <-. intuition.
    + rewrite IH. intuition.
Qed.

Lemma NoDup_keys_set k v o : NoDup (keys o) -> NoDup (keys (set k v o)).
Proof.
  induction o as [|[k' v'] o IH]; simpl; intros Hnd.
  - constructor; [tauto | constructor].
  - inversion_clear Hnd as [|? ? Hk' Hnd'].
    destruct (str_eqb k k') eqn:E; simpl.
    + apply str_eqb_eq in E as ->. now constructor.
    + constructor; [|auto].
      rewrite in_keys_set. apply str_eqb_neq in E. intuition.
Qed.

Lemma NoDup_keys_assign k v o : NoDup (keys o) -> NoDup (keys (assign k v o)).
Proof.
  unfold assign; destruct (str_eqb k __proto__); auto using NoDup_keys_set.
Qed.

End Objects.

(* ================================================================== *)
(** * The database schema of a survey *)
(* ================================================================== *)

Lemma assign_fresh_propertyName {V} i q (v : V) (o : Obj V) :
  ~ In (propertyName i q) (keys o) ->
  assign (propertyName i q) v o = o ++ [(propertyName i q, v)].
Proof.
  intros H. unfold assign. rewrite propertyName_not_proto.
  now apply set_fresh.
Qed.

(** Each question adds one entry, behind those already there. *)
Lemma addQuestions_entries (questions : list Question) :
  forall index properties g,
    (forall j q, index <= j -> ~ In (propertyName j q) (keys properties)) ->
    exists added,
      fst (addQuestions questions index properties g) = properties ++ added /\
      Forall2 entryOf (indexed index questions) added.
Proof.
  induction questions as [|question rest IH]; intros index properties g Hfresh.
  - exists []. simpl. rewrite app_nil_r. auto.
  - simpl. destruct (questionToNotionProperty question g) as [prop g'] eqn:Eprop.
    rewrite assign_fresh_propertyName by (apply Hfresh; lia).
    destruct (IH (S index)
                (properties ++ [(propertyName index question, prop)]) g')
      as (added & Eadded & Hadded).
    + intros j q Hj. unfold keys. rewrite map_app, in_app_iff. simpl.
      intros [Hin | [E | []]].
      * apply (Hfresh j q); [lia | exact Hin].
      * apply propertyName_index in E. lia.
    + exists ((propertyName index question, prop) :: added). split.
      * rewrite Eadded, <- app_assoc. reflexivity.
      * constructor; [|exact Hadded].
        split; [reflexivity|]. exists g. simpl. now rewrite Eprop.
Qed.

Lemma entryOf_keys iqs added :
  Forall2 entryOf iqs added ->
  keys added = map (fun iq => propertyName (fst iq) (snd iq)) iqs.
Proof.
  induction 1 as [|iq e iqs added [Hk _] _ IH]; simpl; [reflexivity|].
  now rewrite Hk, IH.
Qed.

Lemma createNotionSurveyDatabase_entries (questions : list Question) g :
  exists added,
    fst (createNotionSurveyDatabase_properties questions g)
    = systemProperties ++ added /\
    Forall2 entryOf (indexed 0 questions) added.
Proof.
  apply addQuestions_entries. intros j q _. simpl.
  intros [E | [E | [E | []]]]; discriminate E.
Qed.

(** The schema of the survey whose one question is the scale "How
    satisfied are you?": four properties, the last one a number. *)
Example schema_of_a_scale_question (g : Random) :
  fst (createNotionSurveyDatabase_properties
         [{| questionText := js "How satisfied are you?"; type := SCALE;
             options := Some [js "5"]; isRequired := true |}] g)
  = [(js "Response ID", Title); (js "Submitted At", CreatedTime);
     (js "Email", Email);
     (js "Q1: How satisfied are you?", Number (js "number"))].
Proof. reflexivity. Qed.

Lemma addQuestions_NoDup (questions : list Question) :
  forall index properties g,
    NoDup (keys properties) ->
    NoDup (keys (fst (addQuestions questions index properties g))).
Proof.
  induction questions as [|q rest IH]; intros index o g Ho; simpl; [exact Ho|].
  destruct (questionToNotionProperty q g) as [prop g'].
  apply IH. now apply NoDup_keys_assign.
Qed.

(** C2.  A survey of n questions gets a schema of n + 3 properties: the
    three fixed ones, Response ID, Submitted At and Email, followed by
    one property per question, named after the question and its position;
    no two of these names are equal. *)
Theorem schema_cardinality (questions : list Question) (g : Random) :
  let properties := fst (createNotionSurveyDatabase_properties questions g) in
  List.length properties = List.length questions + 3 /\
  keys properties
  = [Response_ID; Submitted_At; Email_key]
    ++ map (fun iq => propertyName (fst iq) (snd iq)) (indexed 0 questions) /\
  NoDup (keys properties).
Proof.
  intros properties.
  destruct (createNotionSurveyDatabase_entries questions g)
    as (added & E & Hadded).
  fold properties in E.
  assert (Hkeys : keys properties
                  = [Response_ID; Submitted_At; Email_key]
                    ++ map (fun iq => propertyName (fst iq) (snd iq))
                         (indexed 0 questions)).
  { rewrite E. unfold keys. rewrite map_app. f_equal.
    now apply entryOf_keys. }
  split; [|split].
  - rewrite <- (length_map fst properties). fold (keys properties).
    rewrite Hkeys, length_app, length_map. unfold indexed.
    rewrite length_combine, length_seq.
    simpl. lia.
  - exact Hkeys.
  - apply addQuestions_NoDup. repeat constructor; simpl; intuition discriminate.
Qed.

(* ================================================================== *)
(** * Property names: schema against answers *)
(* ================================================================== *)

(** The key under which an answer is filed is the sanitized name. *)
Lemma responseKey_sanitized (i : nat) (q : Question) :
  SurveyResponse.responseKey i q
  = js "Q" ++ ToString_nat (i + 1) ++ js ": "
    ++ replaceAll 44 59 (questionText q).
Proof. reflexivity. Qed.

Lemma replaceAll_id_iff (c d : N) (s : jsstring) :
  c <> d -> (replaceAll c d s = s <-> ~ In c s).
Proof.
  intros Hcd. induction s as [|x s IH]; simpl; [tauto|].
  destruct (N.eqb_spec x c) as [->|Hx].
  - split; [intros [= E _]; congruence | tauto].
  - split.
    + intros [= E]. apply IH in E. intuition.
    + intros H. f_equal. apply IH. tauto.
Qed.

(** The name of the schema property is the key of the answer exactly for
    the questions whose text has no comma. *)
Lemma propertyName_responseKey_iff (i : nat) (q : Question) :
  propertyName i q = SurveyResponse.responseKey i q
  <-> ~ In 44%N (questionText q).
Proof.
  unfold propertyName, SurveyResponse.responseKey,
    SurveyResponse.sanitizePropertyName.
  rewrite <- (replaceAll_id_iff (c := 44%N) (d := 59%N)) by discriminate.
  split.
  - intros E. now do 3 apply app_inv_head in E.
  - intros E. now rewrite E.
Qed.

(** C1.  At index 0 and the text "Do you like A, B, or C?" the key under
    which the answer is filed is "Q1: Do you like A; B; or C?", as the
    naming rule has it, but the property that schema creation makes for
    the same question is named "Q1: Do you like A, B, or C?": the commas
    are still there, and the two names differ. *)
Theorem schema_name_keeps_commas :
  let question :=
    {| questionText := js "Do you like A, B, or C?"; type := TEXT;
       options := None; isRequired := false |} in
  SurveyResponse.responseKey 0 question = js "Q1: Do you like A; B; or C?" /\
  propertyName 0 question = js "Q1: Do you like A, B, or C?" /\
  keys (fst (createNotionSurveyDatabase_properties
               [question] {| draw := fun _ => 0; calls := 0 |}))
  = [Response_ID; Submitted_At; Email_key; js "Q1: Do you like A, B, or C?"] /\
  propertyName 0 question <> SurveyResponse.responseKey 0 question.
Proof.
  repeat split; try reflexivity. discriminate.
Qed.

(* ================================================================== *)
(** * From a schema back to questions *)
(* ================================================================== *)

(** The loop pushes one question per entry that is not a system property,
    in the order of the entries. *)
Lemma collectQuestions_spec (entries : Obj NotionProperty) :
  forall questions,
    collectQuestions entries questions
    = questions
      ++ map (fun e => questionOfProperty (fst e) (snd e))
           (filter (fun e => negb (isSystemProperty (fst e))) entries).
Proof.
  induction entries as [|[name prop] rest IH]; intros questions; simpl.
  - now rewrite app_nil_r.
  - destruct (isSystemProperty name); simpl; rewrite IH; [reflexivity|].
    now rewrite <- app_assoc.
Qed.

Lemma entryOf_not_system iqs added :
  Forall2 entryOf iqs added ->
  filter (fun e => negb (isSystemProperty (fst e))) added = added.
Proof.
  induction 1 as [|iq e iqs added [Hk _] _ IH]; simpl; [reflexivity|].
  now rewrite Hk, propertyName_not_system, IH.
Qed.

(** Reading back the schema made for a list of questions gives one
    question per entry that stands for a question. *)
Lemma schema_round_trip (questions : list Question) (g : Random) :
  exists added,
    Forall2 entryOf (indexed 0 questions) added /\
    getNotionDatabaseSchema_questions
      (fst (createNotionSurveyDatabase_properties questions g))
    = map (fun e => questionOfProperty (fst e) (snd e)) added.
Proof.
  destruct (createNotionSurveyDatabase_entries questions g)
    as (added & E & Hadded).
  exists added. split; [exact Hadded|].
  unfold getNotionDatabaseSchema_questions.
  rewrite E, collectQuestions_spec, filter_app. simpl.
  now rewrite (entryOf_not_system Hadded).
Qed.

Lemma schema_round_trip_one (q : Question) (g : Random) :
  exists name g',
    getNotionDatabaseSchema_questions
      (fst (createNotionSurveyDatabase_properties [q] g))
    = [questionOfProperty name (fst (questionToNotionProperty q g'))].
Proof.
  destruct (schema_round_trip [q] g) as (added & Hadded & E).
  inversion Hadded as [|iq e iqs added' [_ [g' Hg']] Hrest]; subst.
  inversion Hrest; subst.
  simpl in Hg'. exists (fst e), g'. rewrite E. simpl. now rewrite Hg'.
Qed.

Lemma optionNames_colorOptions (opts : list jsstring) :
  forall g, optionNames (fst (colorOptions opts g)) = opts.
Proof.
  unfold optionNames.
  induction opts as [|opt opts IH]; intros g; [reflexivity|].
  cbn [colorOptions]. destruct (getRandomNotionColor g) as [c g1].
  specialize (IH g1). destruct (colorOptions opts g1) as [rest g2].
  simpl in *. now rewrite IH.
Qed.

(** The kind and the option labels of the question read back from the
    property of [q]. *)
Lemma questionOfProperty_questionToNotionProperty name q g :
  let q' := questionOfProperty name (fst (questionToNotionProperty q g)) in
  match type q with
  | MULTIPLE_CHOICE | CHECKBOX =>
      type q' = type q /\ options q' = Some (optionsOrEmpty q)
  | DATE | SCALE => type q' = type q /\ options q' = Some []
  | TEXT | PARAGRAPH_TEXT | TIME => type q' = TEXT /\ options q' = Some []
  end.
Proof.
  unfold questionToNotionProperty.
  destruct (type q); simpl; auto;
    pose proof (optionNames_colorOptions (optionsOrEmpty q) g) as H;
    destruct (colorOptions (optionsOrEmpty q) g) as [opts g']; simpl in *;
    unfold questionOfProperty; simpl; rewrite H; auto.
Qed.

(** C3.  The schema made for a single question is read back as a single
    question.  Its kind is that of the original when the original is a
    MULTIPLE_CHOICE, CHECKBOX or DATE question, and it is TEXT when the
    original is a TEXT, PARAGRAPH_TEXT or TIME question. *)
Theorem kind_round_trip (q : Question) (g : Random) :
  let back :=
    getNotionDatabaseSchema_questions
      (fst (createNotionSurveyDatabase_properties [q] g)) in
  (In (type q) [MULTIPLE_CHOICE; CHECKBOX; DATE] ->
   map type back = [type q]) /\
  (In (type q) [TEXT; PARAGRAPH_TEXT; TIME] ->
   map type back = [TEXT]).
Proof.
  intros back. destruct (schema_round_trip_one q g) as (name & g' & E).
  unfold back. rewrite E. simpl.
  pose proof (questionOfProperty_questionToNotionProperty name q g') as H.
  simpl in H.
  split; intros Hin; simpl in Hin; f_equal;
    destruct (type q); intuition (try discriminate; auto).
Qed.

Lemma kind_round_trip_witness :
  map type
    (getNotionDatabaseSchema_questions
       (fst (createNotionSurveyDatabase_properties
               [{| questionText := js "Which day?"; type := DATE;
                   options := None; isRequired := true |}]
               {| draw := fun k => k; calls := 0 |})))
  = [DATE] /\
  map type
    (getNotionDatabaseSchema_questions
       (fst (createNotionSurveyDatabase_properties
               [{| questionText := js "At what time?"; type := TIME;
                   options := None; isRequired := true |}]
               {| draw := fun k => k; calls := 0 |})))
  = [TEXT].
Proof.
  split.
  - apply (kind_round_trip
             {| questionText := js "Which day?"; type := DATE;
                options := None; isRequired := true |}
             {| draw := fun k => k; calls := 0 |}).
    simpl. auto.
  - apply (kind_round_trip
             {| questionText := js "At what time?"; type := TIME;
                options := None; isRequired := true |}
             {| draw := fun k => k; calls := 0 |}).
    simpl. auto.
Defined.



Lemma questionOfProperty_not_required name prop :
  isRequired (questionOfProperty name prop) = false.
Proof. unfold questionOfProperty. now destruct prop. Qed.

(** C4.  Every question read from a schema is marked as not required.
    The schema made for a list of questions is read back as a list of as
    many questions, none of them required; so a required question comes
    back as one that is not required. *)
Theorem required_flag_lost :
  (forall properties : Obj NotionProperty,
      Forall (fun q => isRequired q = false)
        (getNotionDatabaseSchema_questions properties)) /\
  (forall (questions : list Question) (g : Random),
      let back :=
        getNotionDatabaseSchema_questions
          (fst (createNotionSurveyDatabase_properties questions g)) in
      List.length back = List.length questions /\
      Forall (fun q => isRequired q = false) back) /\
  (forall (q : Question) (g : Random),
      isRequired q = true ->
      map isRequired
        (getNotionDatabaseSchema_questions
           (fst (createNotionSurveyDatabase_properties [q] g)))
      = [false]).
Proof.
  assert (Hall : forall properties : Obj NotionProperty,
             Forall (fun q => isRequired q = false)
               (getNotionDatabaseSchema_questions properties)).
  { intros properties. unfold getNotionDatabaseSchema_questions.
    rewrite collectQuestions_spec. simpl.
    apply Forall_map, Forall_forall. intros e _.
    apply questionOfProperty_not_required. }
  split; [exact Hall | split].
  - intros questions g back. split; [|apply Hall].
    destruct (schema_round_trip questions g) as (added & Hadded & E).
    unfold back. rewrite E, length_map.
    apply Forall2_length in Hadded. rewrite <- Hadded.
    unfold indexed. rewrite length_combine, length_seq. lia.
  - intros q g _. destruct (schema_round_trip_one q g) as (name & g' & E).
    rewrite E. simpl. now rewrite questionOfProperty_not_required.
Qed.

Lemma required_flag_lost_witness :
  map isRequired
    (getNotionDatabaseSchema_questions
       (fst (createNotionSurveyDatabase_properties
               [{| questionText := js "How satisfied are you?"; type := SCALE;
                   options := Some [js "5"]; isRequired := true |}]
               {| draw := fun k => k; calls := 0 |})))
  = [false].
Proof.
  apply (proj2 (proj2 required_flag_lost)). reflexivity.
Defined.

(* ================================================================== *)
(** * Reading the question text out of a property name *)
(* ================================================================== *)

Example questionMatch_examples :
  questionMatch (js "Q3: Your age?") = Some (js "Your age?") /\
  questionMatch (js "Q12: : x") = Some (js ": x") /\
  questionMatch (js "Q1:x") = None /\
  questionMatch (js "Q: x") = None /\
  questionMatch (js "Q1: ") = None /\
  questionMatch (js "q1: x") = None /\
  questionMatch (js "Q1: first line" ++ [10%N] ++ js "second line") = None.
Proof. repeat split. Qed.

Lemma dropDigits_split (s : jsstring) :
  exists number,
    Forall (fun c => isDigit c = true) number /\ s = number ++ dropDigits s.
Proof.
  induction s as [|c s (number & Hnumber & E)]; simpl.
  - exists []. auto.
  - destruct (isDigit c) eqn:Ec.
    + exists (c :: number). split; [now constructor|]. simpl. now f_equal.
    + exists []. auto.
Qed.

Lemma dropDigits_run (number rest : jsstring) :
  Forall (fun c => isDigit c = true) number ->
  dropDigits (number ++ 58%N :: rest) = 58%N :: rest.
Proof.
  induction 1 as [|c number Hc _ IH]; simpl; [reflexivity|].
  now rewrite Hc.
Qed.

Lemma forallb_no_terminator (s : jsstring) :
  forallb (fun x => negb (isLineTerminator x)) s = true
  <-> Forall (fun c => isLineTerminator c = false) s.
Proof.
  rewrite forallb_forall, Forall_forall.
  split; intros H c Hc; specialize (H c Hc);
    destruct (isLineTerminator c); auto; discriminate.
Qed.

(** The matcher finds a group exactly when the name has the shape of the
    pattern, and then it finds that group. *)
Lemma questionMatch_Some (name group : jsstring) :
  questionMatch name = Some group <-> matchesQuestionPattern name group.
Proof.
  split.
  - destruct name as [|q [|d rest]]; try discriminate.
    unfold questionMatch.
    destruct ((q =? 81)%N && isDigit d)%bool eqn:Ehead; [|discriminate].
    apply andb_true_iff in Ehead as [->%N.eqb_eq Ed].
    destruct (dropDigits_split rest) as (number & Hnumber & Erest).
    destruct (dropDigits rest) as [|colon [|space [|c group']]];
      try discriminate.
    destruct ((colon =? 58)%N && (space =? 32)%N && forallb _ (c :: group'))%bool
      eqn:Etail; [|discriminate].
    apply andb_true_iff in Etail as [Etail Eall].
    apply andb_true_iff in Etail as [->%N.eqb_eq ->%N.eqb_eq].
    intros [= <-]. rewrite Erest.
    apply (matches_pattern (d :: number) (c :: group')).
    + discriminate.
    + now constructor.
    + discriminate.
    + now apply forallb_no_terminator.
  - intros [number group' Hne Hnumber Hgroup Hterm].
    destruct number as [|d number]; [congruence|].
    inversion_clear Hnumber as [|? ? Hd Hnumber'].
    destruct group' as [|c group']; [congruence|].
    simpl. rewrite Hd. rewrite dropDigits_run by assumption.
    apply forallb_no_terminator in Hterm. simpl in Hterm. now rewrite Hterm.
Qed.

Lemma questionMatch_None (name : jsstring) :
  questionMatch name = None
  <-> forall group, ~ matchesQuestionPattern name group.
Proof.
  split.
  - intros E group H%questionMatch_Some. congruence.
  - intros H. destruct (questionMatch name) as [group|] eqn:E; [|reflexivity].
    apply questionMatch_Some in E. now apply H in E.
Qed.

(** C7.  Reading a schema skips the properties named Response ID,
    Submitted At and Email and makes one question of each of the others,
    in their order.  The text of that question is the capture group when
    the name matches [/^Q\d+: (.+)$/], and the whole name when it does
    not. *)
Theorem schema_reading (properties : Obj NotionProperty) :
  getNotionDatabaseSchema_questions properties
  = map (fun e => questionOfProperty (fst e) (snd e))
      (filter (fun e => negb (isSystemProperty (fst e))) properties) /\
  (forall name,
      isSystemProperty name = true
      <-> name = js "Response ID" \/ name = js "Submitted At"
          \/ name = js "Email") /\
  (forall name prop group,
      matchesQuestionPattern name group ->
      questionText (questionOfProperty name prop) = group) /\
  (forall name prop,
      (forall group, ~ matchesQuestionPattern name group) ->
      questionText (questionOfProperty name prop) = name).
Proof.
  split; [|split; [|split]].
  - unfold getNotionDatabaseSchema_questions.
    now rewrite collectQuestions_spec.
  - intros name. unfold isSystemProperty.
    rewrite !orb_true_iff, !str_eqb_eq. tauto.
  - intros name prop group H%questionMatch_Some.
    unfold questionOfProperty. rewrite H. now destruct prop.
  - intros name prop H%questionMatch_None.
    unfold questionOfProperty. rewrite H. now destruct prop.
Qed.

Lemma schema_reading_witness :
  questionText (questionOfProperty (js "Q12: Your age?") (Number (js "number")))
  = js "Your age?" /\
  questionText (questionOfProperty (js "Notes") RichText) = js "Notes".
Proof.
  split.
  - apply (proj1 (proj2 (proj2 (schema_reading [])))).
    apply (matches_pattern (js "12") (js "Your age?")).
    + discriminate.
    + repeat constructor.
    + discriminate.
    + repeat constructor.
  - apply (proj2 (proj2 (proj2 (schema_reading [])))).
    intros group H. inversion H.
Defined.

(* ================================================================== *)
(** * The properties of a submitted response *)
(* ================================================================== *)

Lemma get_assign_other {V} (k k' : jsstring) (v : V) (o : Obj V) :
  k <> k' -> get k (assign k' v o) = get k o.
Proof.
  intros H. unfold assign. destruct (str_eqb k' __proto__); [reflexivity|].
  now apply get_set_other.
Qed.

Lemma get_assign_same {V} (k : jsstring) (v : V) (o : Obj V) :
  k <> __proto__ -> get k (assign k v o) = Some v.
Proof.
  intros H%str_eqb_neq. unfold assign. rewrite H. apply get_set_same.
Qed.

(** One turn of the loop over the answers. *)
Lemma mapResponses_cons key value rest properties :
  mapResponses ((key, value) :: rest) properties
  = match value with
    | VDate None => RangeError
    | _ =>
        mapResponses rest
          match propertyValueOf value with
          | Some pv => assign key pv properties
          | None => properties
          end
    end.
Proof. destruct value as [| | | | | |[iso|]|]; reflexivity. Qed.

(** Entries whose value has no branch can be left out. *)
Lemma mapResponses_filter (entries : Obj Value) :
  forall properties,
    mapResponses entries properties
    = mapResponses (filter (fun e => isMapped (snd e)) entries) properties.
Proof.
  induction entries as [|[key value] rest IH]; intros properties;
    [reflexivity|].
  destruct value as [| | | | | |[iso|]|]; simpl; auto.
Qed.

(** A key under which no answer is written keeps what it had. *)
Lemma mapResponses_get_untouched (entries : Obj Value) :
  forall properties result key,
    mapResponses entries properties = Returned result ->
    (forall value, In (key, value) entries -> isMapped value = false) ->
    get key result = get key properties.
Proof.
  induction entries as [|[k value] rest IH]; intros properties result key.
  - simpl. now intros [= ->].
  - rewrite mapResponses_cons. intros Hres Hkey.
    assert (Hrest : forall v, In (key, v) rest -> isMapped v = false)
      by (intros v Hv; apply Hkey; now right).
    assert (Hk : isMapped value = true -> key <> k).
    { intros Hm ->. rewrite (Hkey value) in Hm; [discriminate | now left]. }
    destruct value as [| | | | | |[iso|]|]; try discriminate Hres;
      simpl in Hres; rewrite (IH _ _ _ Hres Hrest);
      try reflexivity; apply get_assign_other; now apply Hk.
Qed.


(** An answer that has a branch is found under its key. *)
Lemma mapResponses_get_answer (entries : Obj Value) :
  forall properties result key value pv,
    mapResponses entries properties = Returned result ->
    NoDup (keys entries) ->
    In (key, value) entries ->
    key <> __proto__ ->
    propertyValueOf value = Some pv ->
    get key result = Some pv.
Proof.
  induction entries as [|[k v] rest IH];
    intros properties result key value pv Hres Hnd Hin Hproto Hpv;
    [destruct Hin|].
  inversion_clear Hnd as [|? ? Hk Hnd']. simpl in Hk.
  rewrite mapResponses_cons in Hres.
  destruct Hin as [[= -> ->]|Hin].
  - rewrite Hpv in Hres.
    assert (Hgo : mapResponses rest (assign key pv properties)
                  = Returned result)
      by (destruct value as [| | | | | |[iso|]|]; try discriminate Hpv;
          exact Hres).
    rewrite (mapResponses_get_untouched _ _ key Hgo).
    + now apply get_assign_same.
    + intros v' Hv'. exfalso. apply Hk.
      change key with (fst (key, v')). now apply in_map.
  - destruct v as [| | | | | |[iso|]|]; try discriminate Hres;
      eapply IH; eauto.
Qed.



(** C5, as the code has it.  An answer whose value is not a string, a
    number, an array or a [Date] is passed over: the outcome, payload or
    error, is that of the same answers without it.  In the payload its key
    is absent, unless the key is Response ID or Submitted At, which are
    always there. *)
Theorem unmapped_values_dropped (now : N) (nowISO : jsstring)
    (responses : Obj Value) :
  submitNotionResponse_properties now nowISO responses
  = submitNotionResponse_properties now nowISO
      (filter (fun e => isMapped (snd e)) responses) /\
  (forall key properties,
      submitNotionResponse_properties now nowISO responses
      = Returned properties ->
      (forall value, In (key, value) responses -> isMapped value = false) ->
      key <> js "Response ID" ->
      key <> js "Submitted At" ->
      get key properties = None).
Proof.
  split.
  - apply mapResponses_filter.
  - intros key properties Hres Hkey Hid Hat.
    unfold submitNotionResponse_properties in Hres.
    rewrite (mapResponses_get_untouched _ _ key Hres Hkey). simpl.
    apply str_eqb_neq in Hid, Hat.
    unfold Response_ID, Submitted_At. now rewrite Hid, Hat.
Qed.

Lemma unmapped_values_dropped_witness :
  get (js "Q1: Anything else?")
    [(js "Response ID", TitleValue (js "Response-1700000000000"));
     (js "Submitted At", DateValue (js "2023-11-14T22:13:20.000Z"));
     (js "Q2: Your name", RichTextValue (js "Ada"))]
  = None.
Proof.
  apply (proj2 (unmapped_values_dropped 1700000000000
                  (js "2023-11-14T22:13:20.000Z")
                  [(js "Q1: Anything else?",
                    VObject [(js "nested", VBoolean true)]);
                   (js "Q2: Your name", VString (js "Ada"))])).
  - reflexivity.
  - intros value [[= <-]|[[=]|[]]]. reflexivity.
  - discriminate.
  - discriminate.
Defined.

(** C5 as stated fails on an array that holds something else than
    strings: the value is none of a string, a number, an array of strings
    and a [Date], and still its key is in the payload. *)
Lemma array_of_numbers_is_encoded :
  listedAsEncoded (VArray [VNumber 1; VNumber 2]) = false /\
  submitNotionResponse_properties 1700000000000
    (js "2023-11-14T22:13:20.000Z")
    [(js "Q1: Pick", VArray [VNumber 1; VNumber 2])]
  = Returned
      [(js "Response ID", TitleValue (js "Response-1700000000000"));
       (js "Submitted At", DateValue (js "2023-11-14T22:13:20.000Z"));
       (js "Q1: Pick", MultiSelectValue [VNumber 1; VNumber 2])] /\
  get (js "Q1: Pick")
    [(js "Response ID", TitleValue (js "Response-1700000000000"));
     (js "Submitted At", DateValue (js "2023-11-14T22:13:20.000Z"));
     (js "Q1: Pick", MultiSelectValue [VNumber 1; VNumber 2])]
  <> None.
Proof.
  repeat split. discriminate.
Qed.




(* ================================================================== *)
(** * Sorting an array *)
(* ================================================================== *)

Section SortFacts.
Context {A : Type} (comparefn : A -> A -> option Z).

Lemma insert_Permutation (a : A) (l : list A) :
  Permutation (ArraySort.insert comparefn a l) (a :: l).
Proof.
  induction l as [|b l IH]; simpl; [reflexivity|].
  destruct (ArraySort.comesAfter comparefn a b); [|reflexivity].
  rewrite IH. apply perm_swap.
Qed.

Lemma sort_Permutation (l : list A) :
  Permutation (ArraySort.sort comparefn l) l.
Proof.
  induction l as [|a l IH]; simpl; [reflexivity|].
  fold (ArraySort.sort comparefn l).
  now rewrite insert_Permutation, IH.
Qed.

End SortFacts.

Import LocalStorage StorageService EmailHistoryService.

Lemma notOlder_trans (a b c : FormMetadata) :
  notOlder a b -> notOlder b c -> notOlder a c.
Proof.
  unfold notOlder.
  destruct (createdAtTime a), (createdAtTime b), (createdAtTime c);
    try tauto; lia.
Qed.

Lemma comesAfter_byCreatedAt (a b : FormMetadata) :
  createdAtTime a <> None -> createdAtTime b <> None ->
  if ArraySort.comesAfter byCreatedAtDescending a b
  then notOlder b a else notOlder a b.
Proof.
  unfold ArraySort.comesAfter, byCreatedAtDescending, notOlder, createdAtTime.
  destruct (getTime (createdAt a)) as [ta|], (getTime (createdAt b)) as [tb|];
    try congruence.
  intros _ _. destruct (Z.ltb_spec 0 (tb - ta)); lia.
Qed.

Lemma insert_sorted (a : FormMetadata) (l : list FormMetadata) :
  createdAtTime a <> None ->
  Forall (fun f => createdAtTime f <> None) l ->
  StronglySorted notOlder l ->
  StronglySorted notOlder (ArraySort.insert byCreatedAtDescending a l).
Proof.
  intros Ha Hl Hs. induction Hs as [|b l Hs IH Hb]; simpl.
  - repeat constructor.
  - inversion_clear Hl as [|? ? Hbt Hl'].
    pose proof (comesAfter_byCreatedAt a b Ha Hbt) as Hcmp.
    destruct (ArraySort.comesAfter byCreatedAtDescending a b).
    + constructor; [auto|].
      rewrite (insert_Permutation byCreatedAtDescending a l).
      now constructor.
    + constructor; [now constructor|].
      constructor; [exact Hcmp|].
      eapply Forall_impl; [|exact Hb].
      intros c Hc. now apply notOlder_trans with b.
Qed.

(** With dates that are all known, sorting puts the newest first. *)
Lemma sort_sorted (l : list FormMetadata) :
  Forall (fun f => createdAtTime f <> None) l ->
  StronglySorted notOlder (ArraySort.sort byCreatedAtDescending l).
Proof.
  induction 1 as [|a l Ha Hl IH]; simpl; [constructor|].
  fold (ArraySort.sort byCreatedAtDescending l).
  apply insert_sorted; auto.
  now rewrite (sort_Permutation byCreatedAtDescending l).
Qed.

(** The arrangements of three elements. *)
Lemma Permutation_three {A} (a b c : A) (l : list A) :
  Permutation l [a; b; c] ->
  l = [a; b; c] \/ l = [a; c; b] \/ l = [b; a; c] \/
  l = [b; c; a] \/ l = [c; a; b] \/ l = [c; b; a].
Proof.
  intros H. pose proof (Permutation_length H) as Hlen.
  destruct l as [|x [|y [|z [|]]]]; try discriminate Hlen. clear Hlen.
  assert (Hx : In x [a; b; c])
    by (apply (Permutation_in _ H); now left).
  destruct Hx as [<-|[<-|[<-|[]]]].
  - apply Permutation_cons_inv, Permutation_sym, Permutation_length_2_inv
      in H as [[= -> ->]|[= -> ->]]; auto.
  - assert (H' : Permutation (b :: [y; z]) (b :: [a; c]))
      by (rewrite H; apply perm_swap).
    apply Permutation_cons_inv, Permutation_sym, Permutation_length_2_inv
      in H' as [[= -> ->]|[= -> ->]]; auto 6.
  - assert (H' : Permutation (c :: [y; z]) (c :: [a; b])).
    { rewrite H. symmetry. apply (Permutation_cons_append [a; b] c). }
    apply Permutation_cons_inv, Permutation_sym, Permutation_length_2_inv
      in H' as [[= -> ->]|[= -> ->]]; auto 7.
Qed.

(* ================================================================== *)
(** * The record of created forms *)
(* ================================================================== *)

(** What is listed after a form has been saved. *)
Lemma getFormsMetadata_saveFormMetadata (newForm : FormMetadata) s :
  fst (getFormsMetadata (saveFormMetadata newForm s))
  = ArraySort.sort byCreatedAtDescending
      (newForm
       :: filter (fun f => negb (str_eqb (id f) (id newForm)))
            (fst (getFormsMetadata s))).
Proof.
  unfold saveFormMetadata.
  now destruct (getFormsMetadata s) as [existingForms s1].
Qed.

Lemma filter_other_ids (newForm : FormMetadata) (forms : list FormMetadata) :
  ~ In (id newForm) (map id forms) ->
  filter (fun f => negb (str_eqb (id f) (id newForm))) forms = forms.
Proof.
  induction forms as [|f forms IH]; simpl; [reflexivity|].
  intros H. destruct (str_eqb (id f) (id newForm)) eqn:E; simpl.
  - apply str_eqb_eq in E. tauto.
  - rewrite IH; tauto.
Qed.

(** Forms saved under identifiers that are all different and all new are
    all listed afterwards, with those listed before. *)
Lemma saved_forms_listed (order : list FormMetadata) :
  forall s,
    NoDup (map id order) ->
    (forall e, In e order ->
               ~ In (id e) (map id (fst (getFormsMetadata s)))) ->
    Permutation
      (fst (getFormsMetadata
              (fold_left (fun s e => saveFormMetadata e s) order s)))
      (List.rev order ++ fst (getFormsMetadata s)).
Proof.
  induction order as [|e rest IH]; intros s Hnd Hnew; simpl; [reflexivity|].
  inversion_clear Hnd as [|? ? He Hnd'].
  assert (Hstep : Permutation (fst (getFormsMetadata (saveFormMetadata e s)))
                    (e :: fst (getFormsMetadata s))).
  { rewrite getFormsMetadata_saveFormMetadata, sort_Permutation.
    rewrite filter_other_ids; [reflexivity|]. apply Hnew. now left. }
  rewrite IH; [| exact Hnd' |].
  - rewrite Hstep, <- app_assoc. simpl. reflexivity.
  - intros e' He'. rewrite (Permutation_map id Hstep). simpl.
    intros [E | Hin].
    + apply He. rewrite E. now apply in_map.
    + apply (Hnew e'); [now right | exact Hin].
Qed.

(** What [getFormsMetadata] lists is sorted, newest first, when all the
    dates are known. *)
Lemma getFormsMetadata_sorted s :
  Forall (fun f => createdAtTime f <> None) (fst (getFormsMetadata s)) ->
  StronglySorted notOlder (fst (getFormsMetadata s)).
Proof.
  unfold getFormsMetadata.
  destruct (formulateAiForms s) as [[[|c raw]|forms]|]; simpl;
    try constructor.
  intros Hvalid. apply sort_sorted.
  now rewrite <- (sort_Permutation byCreatedAtDescending forms).
Qed.

(** C9, as the code has it.  Three forms with pairwise different
    identifiers, created at the times T1 < T2 < T3, are saved one after the
    other, in any order, to a store that lists no forms: the item is
    missing, does not parse or holds an empty list.  The forms are then
    listed with the most recent first: the one of T3, the one of T2, the
    one of T1. *)
Theorem metadata_ordering (s : LocalStorage.t) (e1 e2 e3 : FormMetadata)
    (t1 t2 t3 : Z) (order : list FormMetadata) :
  fst (getFormsMetadata s) = [] ->
  Permutation order [e1; e2; e3] ->
  id e1 <> id e2 -> id e1 <> id e3 -> id e2 <> id e3 ->
  getTime (createdAt e1) = Some t1 ->
  getTime (createdAt e2) = Some t2 ->
  getTime (createdAt e3) = Some t3 ->
  (t1 < t2 < t3)%Z ->
  fst (getFormsMetadata
         (fold_left (fun s e => saveFormMetadata e s) order s))
  = [e3; e2; e1].
Proof.
  intros Hnone Horder H12 H13 H23 Ht1 Ht2 Ht3 Hlt.
  assert (Hperm : Permutation
                    (fst (getFormsMetadata
                            (fold_left (fun s e => saveFormMetadata e s)
                               order s)))
                    [e1; e2; e3]).
  { rewrite saved_forms_listed.
    - now rewrite Hnone, app_nil_r, <- Permutation_rev.
    - rewrite (Permutation_map id Horder). simpl.
      repeat constructor; simpl; intuition.
    - intros e _. now rewrite Hnone. }
  assert (Hsorted : StronglySorted notOlder
                      (fst (getFormsMetadata
                              (fold_left (fun s e => saveFormMetadata e s)
                                 order s)))).
  { apply getFormsMetadata_sorted. rewrite Hperm.
    unfold createdAtTime. repeat constructor; congruence. }
  assert (H21 : ~ notOlder e1 e2)
    by (unfold notOlder, createdAtTime; rewrite Ht1, Ht2; lia).
  assert (H31 : ~ notOlder e1 e3)
    by (unfold notOlder, createdAtTime; rewrite Ht1, Ht3; lia).
  assert (H32 : ~ notOlder e2 e3)
    by (unfold notOlder, createdAtTime; rewrite Ht2, Ht3; lia).
  destruct (Permutation_three Hperm) as [E|[E|[E|[E|[E|E]]]]];
    rewrite E in Hsorted |- *; try reflexivity; exfalso;
    repeat match goal with
      | H : StronglySorted _ (_ :: _) |- _ =>
          apply StronglySorted_inv in H; destruct H
      | H : Forall _ (_ :: _) |- _ => inversion_clear H
      end; tauto.
Qed.

Lemma metadata_ordering_witness :
  let form name date time :=
    {| id := name; title := js "Survey"; questionCount := 3;
       createdAt := {| text := date; getTime := Some time |};
       responseData := None; analysisResult := None;
       editUrl := None; publishedUrl := None |} in
  let e1 := form (js "db-1") (js "2024-01-01T00:00:00.000Z") 1704067200000%Z in
  let e2 := form (js "db-2") (js "2024-01-02T00:00:00.000Z") 1704153600000%Z in
  let e3 := form (js "db-3") (js "2024-01-03T00:00:00.000Z") 1704240000000%Z in
  fst (getFormsMetadata
         (fold_left (fun s e => saveFormMetadata e s) [e2; e3; e1]
            {| formulateAiForms := None;
               notion_survey_email_history := None |}))
  = [e3; e2; e1].
Proof.
  intros form e1 e2 e3.
  apply (@metadata_ordering
           {| formulateAiForms := None; notion_survey_email_history := None |}
           e1 e2 e3
           1704067200000%Z 1704153600000%Z 1704240000000%Z [e2; e3; e1]).
  - reflexivity.
  - apply Permutation_sym, (Permutation_cons_append [e2; e3] e1).
  - discriminate.
  - discriminate.
  - discriminate.
  - reflexivity.
  - reflexivity.
  - reflexivity.
  - lia.
Defined.

(** C9 as stated fails when two of the entries have the same identifier:
    saving replaces by identifier, so of the entries of T1 and T2 saved
    under "db-1" only the one saved last is left, and the listing has two
    entries, not the three of T3, T2, T1. *)
Lemma same_id_entry_replaced :
  let form name date time :=
    {| id := name; title := js "Survey"; questionCount := 3;
       createdAt := {| text := date; getTime := Some time |};
       responseData := None; analysisResult := None;
       editUrl := None; publishedUrl := None |} in
  let e1 := form (js "db-1") (js "2024-01-01T00:00:00.000Z") 1704067200000%Z in
  let e2 := form (js "db-1") (js "2024-01-02T00:00:00.000Z") 1704153600000%Z in
  let e3 := form (js "db-2") (js "2024-01-03T00:00:00.000Z") 1704240000000%Z in
  let saved order :=
    fst (getFormsMetadata
           (fold_left (fun s e => saveFormMetadata e s) order
              {| formulateAiForms := None;
                 notion_survey_email_history := None |})) in
  (1704067200000 < 1704153600000 < 1704240000000)%Z /\
  saved [e1; e2; e3] = [e3; e2] /\
  saved [e2; e3; e1] = [e3; e1] /\
  saved [e1; e2; e3] <> [e3; e2; e1] /\
  saved [e2; e3; e1] <> [e3; e2; e1].
Proof.
  intros form e1 e2 e3 saved.
  assert (H1 : saved [e1; e2; e3] = [e3; e2]) by (vm_compute; reflexivity).
  assert (H2 : saved [e2; e3; e1] = [e3; e1]) by (vm_compute; reflexivity).
  split; [lia|]. split; [exact H1|]. split; [exact H2|].
  rewrite H1, H2. split; discriminate.
Qed.

(* ================================================================== *)
(** * Reading a store that is empty or damaged *)
(* ================================================================== *)

(** C8, as the code has it.  Both read operations return a result
    whatever the store holds, and the empty list when their item is
    missing or is not JSON.  [getFormsMetadata] then removes an item that
    failed to parse, and touches nothing else; [getEmailHistory] never
    changes the store. *)
Theorem reads_of_damaged_store (s : LocalStorage.t) :
  (formulateAiForms s = None \/
   (exists raw, formulateAiForms s = Some (Unparseable raw)) ->
   fst (getFormsMetadata s) = []) /\
  (forall raw,
      formulateAiForms s = Some (Unparseable raw) -> raw <> [] ->
      formulateAiForms (snd (getFormsMetadata s)) = None /\
      notion_survey_email_history (snd (getFormsMetadata s))
      = notion_survey_email_history s) /\
  (notion_survey_email_history s = None \/
   (exists raw, notion_survey_email_history s = Some (Unparseable raw)) ->
   fst (getEmailHistory s) = []) /\
  snd (getEmailHistory s) = s.
Proof.
  unfold getFormsMetadata, getEmailHistory.
  split; [|split; [|split]].
  - intros [-> | [[|c raw] ->]]; reflexivity.
  - intros [|c raw] Hraw Hne; [congruence|]. now rewrite Hraw.
  - intros [-> | [raw ->]]; reflexivity.
  - now destruct (notion_survey_email_history s) as [[raw|history]|].
Qed.

Lemma reads_of_damaged_store_witness :
  let s :=
    {| formulateAiForms := Some (Unparseable (js "[{"));
       notion_survey_email_history := Some (Unparseable (js "oops")) |} in
  fst (getFormsMetadata s) = [] /\
  formulateAiForms (snd (getFormsMetadata s)) = None /\
  fst (getEmailHistory s) = [].
Proof.
  intros s.
  destruct (reads_of_damaged_store s) as (Hforms & Hremoved & Hhistory & _).
  split; [|split].
  - apply Hforms. right. now exists (js "[{").
  - apply (Hremoved (js "[{")); [reflexivity | discriminate].
  - apply Hhistory. right. now exists (js "oops").
Defined.

(** C8 as stated fails for the e-mail history: an item that is not JSON
    is answered with the empty list and is still in the store
    afterwards. *)
Lemma damaged_email_history_stays :
  let s :=
    {| formulateAiForms := None;
       notion_survey_email_history := Some (Unparseable (js "{not json")) |} in
  fst (getEmailHistory s) = [] /\
  notion_survey_email_history (snd (getEmailHistory s))
  = Some (Unparseable (js "{not json")) /\
  notion_survey_email_history (snd (getEmailHistory s)) <> None.
Proof.
  repeat split. discriminate.
Qed.

(* ================================================================== *)
(** * More on the record of created forms *)
(* ================================================================== *)

Import JsArray FormAnalysis.

(** X1.  Whatever forms are stored, with dates that are all known,
    [getFormsMetadata] lists every one of them, the most recent first,
    and leaves the store as it was. *)
Theorem forms_listed_newest_first (s : LocalStorage.t)
    (forms : list FormMetadata) :
  formulateAiForms s = Some (Json forms) ->
  Forall (fun f => createdAtTime f <> None) forms ->
  Permutation (fst (getFormsMetadata s)) forms /\
  StronglySorted notOlder (fst (getFormsMetadata s)) /\
  snd (getFormsMetadata s) = s.
Proof.
  intros Hs Hvalid. unfold getFormsMetadata. rewrite Hs. simpl.
  split; [apply sort_Permutation | split; [now apply sort_sorted | reflexivity]].
Qed.

(** What is listed after a form has been saved, up to the order. *)
Lemma saveFormMetadata_listing (newForm : FormMetadata) (s : LocalStorage.t) :
  Permutation (fst (getFormsMetadata (saveFormMetadata newForm s)))
    (newForm
     :: filter (fun f => negb (str_eqb (id f) (id newForm)))
          (fst (getFormsMetadata s))).
Proof.
  rewrite getFormsMetadata_saveFormMetadata. apply sort_Permutation.
Qed.

(** X2.  Saving a form inserts it or replaces the forms of the same
    identifier: afterwards the listing is made of the new form and of
    the forms listed before under other identifiers, so the new form is
    the only one listed under its identifier. *)
Theorem save_replaces_by_id (newForm : FormMetadata) (s : LocalStorage.t) :
  let before := fst (getFormsMetadata s) in
  let after := fst (getFormsMetadata (saveFormMetadata newForm s)) in
  Permutation after
    (newForm :: filter (fun f => negb (str_eqb (id f) (id newForm))) before) /\
  In newForm after /\
  (forall f, In f after -> id f = id newForm -> f = newForm) /\
  (forall f, In f before -> id f <> id newForm -> In f after) /\
  List.length after <= S (List.length before).
Proof.
  intros before after.
  assert (Hperm : Permutation after
            (newForm
             :: filter (fun f => negb (str_eqb (id f) (id newForm))) before)).
  { apply saveFormMetadata_listing. }
  split; [exact Hperm|]. split; [|split; [|split]].
  - apply (Permutation_in _ (Permutation_sym Hperm)). now left.
  - intros f Hf Hid. apply (Permutation_in _ Hperm) in Hf.
    destruct Hf as [<-|Hf]; [reflexivity|].
    apply filter_In in Hf as [_ Hf]. apply negb_true_iff, str_eqb_neq in Hf.
    contradiction.
  - intros f Hf Hid. apply (Permutation_in _ (Permutation_sym Hperm)).
    right. apply filter_In. split; [exact Hf|].
    now apply negb_true_iff, str_eqb_neq.
  - rewrite (Permutation_length Hperm). simpl. apply le_n_S, filter_length_le.
Qed.

Lemma map_id_filter_subset (p : FormMetadata -> bool) forms :
  NoDup (map id forms) -> NoDup (map id (filter p forms)).
Proof.
  induction forms as [|f forms IH]; simpl; [auto|].
  intros Hnd. inversion_clear Hnd as [|? ? Hf Hnd'].
  destruct (p f); simpl; [|auto].
  constructor; [|auto].
  intros Hin. apply Hf. apply in_map_iff in Hin as (g & Eg & Hg).
  apply filter_In in Hg as [Hg _]. rewrite <- Eg. now apply in_map.
Qed.

(** X3.  Identifiers that are pairwise different in the listing are still
    so after a form has been saved. *)
Theorem save_keeps_ids_distinct (newForm : FormMetadata) (s : LocalStorage.t) :
  NoDup (map id (fst (getFormsMetadata s))) ->
  NoDup (map id (fst (getFormsMetadata (saveFormMetadata newForm s)))).
Proof.
  intros Hnd.
  rewrite (Permutation_map id (saveFormMetadata_listing newForm s)).
  simpl. constructor.
  - intros Hin. apply in_map_iff in Hin as (f & Ef & Hf).
    apply filter_In in Hf as [_ Hf].
    apply negb_true_iff, str_eqb_neq in Hf. contradiction.
  - now apply map_id_filter_subset.
Qed.

Lemma save_keeps_ids_distinct_witness :
  NoDup
    (map id
       (fst (getFormsMetadata
               (saveFormMetadata
                  {| id := js "db-2"; title := js "Second"; questionCount := 2;
                     createdAt := {| text := js "2024-01-02T00:00:00.000Z";
                                     getTime := Some 1704153600000%Z |};
                     responseData := None; analysisResult := None;
                     editUrl := None; publishedUrl := None |}
                  {| formulateAiForms :=
                       Some (Json
                         [{| id := js "db-1"; title := js "First";
                             questionCount := 1;
                             createdAt :=
                               {| text := js "2024-01-01T00:00:00.000Z";
                                  getTime := Some 1704067200000%Z |};
                             responseData := None; analysisResult := None;
                             editUrl := None; publishedUrl := None |}]);
                     notion_survey_email_history := None |})))).
Proof.
  apply save_keeps_ids_distinct. simpl. repeat constructor. simpl. tauto.
Defined.

(** X4.  Forms with pairwise different identifiers and known dates, saved
    one after the other to a store that holds no forms, are all listed
    afterwards, the most recent first, however many they are and in
    whatever order they were saved. *)
Theorem saved_forms_listed_newest_first (s : LocalStorage.t)
    (order : list FormMetadata) :
  formulateAiForms s = None ->
  NoDup (map id order) ->
  Forall (fun f => createdAtTime f <> None) order ->
  let listing :=
    fst (getFormsMetadata
           (fold_left (fun s e => saveFormMetadata e s) order s)) in
  Permutation listing order /\ StronglySorted notOlder listing.
Proof.
  intros Hempty Hnd Hvalid listing.
  assert (Hnone : fst (getFormsMetadata s) = [])
    by (unfold getFormsMetadata; now rewrite Hempty).
  assert (Hperm : Permutation listing order).
  { unfold listing. rewrite saved_forms_listed.
    - now rewrite Hnone, app_nil_r, <- Permutation_rev.
    - exact Hnd.
    - intros e _. now rewrite Hnone. }
  split; [exact Hperm|].
  apply getFormsMetadata_sorted. fold listing. now rewrite Hperm.
Qed.

Lemma saved_forms_listed_newest_first_witness :
  let form name date time :=
    {| id := name; title := js "Survey"; questionCount := 3;
       createdAt := {| text := date; getTime := Some time |};
       responseData := None; analysisResult := None;
       editUrl := None; publishedUrl := None |} in
  let order :=
    [form (js "db-2") (js "2024-01-02T00:00:00.000Z") 1704153600000%Z;
     form (js "db-1") (js "2024-01-01T00:00:00.000Z") 1704067200000%Z] in
  let listing :=
    fst (getFormsMetadata
           (fold_left (fun s e => saveFormMetadata e s) order
              {| formulateAiForms := None;
                 notion_survey_email_history := None |})) in
  Permutation listing order /\ StronglySorted notOlder listing.
Proof.
  intros form order listing.
  apply (@saved_forms_listed_newest_first
           {| formulateAiForms := None; notion_survey_email_history := None |}
           order).
  - reflexivity.
  - simpl. repeat constructor; simpl; intuition discriminate.
  - repeat constructor; discriminate.
Defined.

(** X5.  Saving to a store whose forms are missing or do not parse leaves
    exactly the new form there: what did not parse is given up.  The
    e-mail history is not touched. *)
Theorem save_to_empty_or_damaged_store (newForm : FormMetadata)
    (s : LocalStorage.t) :
  formulateAiForms s = None \/
  (exists raw, formulateAiForms s = Some (Unparseable raw)) ->
  formulateAiForms (saveFormMetadata newForm s) = Some (Json [newForm]) /\
  fst (getFormsMetadata (saveFormMetadata newForm s)) = [newForm] /\
  notion_survey_email_history (saveFormMetadata newForm s)
  = notion_survey_email_history s.
Proof.
  unfold saveFormMetadata, getFormsMetadata.
  intros [-> | [[|c raw] ->]]; simpl; auto.
Qed.

Lemma save_to_empty_or_damaged_store_witness :
  let newForm :=
    {| id := js "db-1"; title := js "First"; questionCount := 1;
       createdAt := {| text := js "2024-01-01T00:00:00.000Z";
                       getTime := Some 1704067200000%Z |};
       responseData := None; analysisResult := None;
       editUrl := None; publishedUrl := None |} in
  let s :=
    {| formulateAiForms := Some (Unparseable (js "[{"));
       notion_survey_email_history := None |} in
  formulateAiForms (saveFormMetadata newForm s) = Some (Json [newForm]) /\
  fst (getFormsMetadata (saveFormMetadata newForm s)) = [newForm] /\
  notion_survey_email_history (saveFormMetadata newForm s)
  = notion_survey_email_history s.
Proof.
  intros newForm s. apply save_to_empty_or_damaged_store.
  right. now exists (js "[{").
Defined.

Lemma forms_listed_newest_first_witness :
  let form name date time :=
    {| id := name; title := js "Survey"; questionCount := 3;
       createdAt := {| text := date; getTime := Some time |};
       responseData := None; analysisResult := None;
       editUrl := None; publishedUrl := None |} in
  let forms :=
    [form (js "db-1") (js "2024-01-01T00:00:00.000Z") 1704067200000%Z;
     form (js "db-2") (js "2024-01-02T00:00:00.000Z") 1704153600000%Z] in
  let s :=
    {| formulateAiForms := Some (Json forms);
       notion_survey_email_history := None |} in
  Permutation (fst (getFormsMetadata s)) forms /\
  StronglySorted notOlder (fst (getFormsMetadata s)) /\
  snd (getFormsMetadata s) = s.
Proof.
  intros form forms s. apply (@forms_listed_newest_first s forms).
  - reflexivity.
  - repeat constructor; discriminate.
Defined.

(* ================================================================== *)
(** * Attaching an analysis to a form *)
(* ================================================================== *)

Lemma findIndex_None {A} (p : A -> bool) (l : list A) :
  findIndex p l = None <-> forall x, In x l -> p x = false.
Proof.
  induction l as [|a l IH]; simpl; [tauto|].
  destruct (p a) eqn:Ea.
  - split; [discriminate|]. intros H. rewrite (H a) in Ea; [discriminate|auto].
  - destruct (findIndex p l); simpl.
    + split; [discriminate|]. intros H.
      assert (E : @Some nat n = None) by (apply IH; auto). discriminate.
    + split; [|reflexivity]. intros _ x [<-|Hx]; [exact Ea|].
      now apply IH.
Qed.

(** [findIndex] gives the first position where the test holds. *)
Lemma findIndex_Some {A} (p : A -> bool) (l : list A) (i : nat) :
  findIndex p l = Some i ->
  (exists x, nth_error l i = Some x /\ p x = true) /\
  (forall j y, j < i -> nth_error l j = Some y -> p y = false).
Proof.
  revert i; induction l as [|a l IH]; intros i; simpl; [discriminate|].
  destruct (p a) eqn:Ea.
  - intros [= <-]. split; [now exists a | intros j y Hj; lia].
  - destruct (findIndex p l) as [k|]; simpl; [|discriminate].
    intros [= <-]. destruct (IH k eq_refl) as [Hx Hbefore].
    split; [exact Hx|].
    intros [|j] y Hj; simpl; [now intros [= <-]|].
    apply Hbefore. lia.
Qed.

Lemma nth_error_adjust_same {A} (f : A -> A) (l : list A) (i : nat) :
  nth_error (adjust f i l) i = option_map f (nth_error l i).
Proof.
  revert i; induction l as [|a l IH]; intros [|i]; simpl; auto.
Qed.

Lemma nth_error_adjust_other {A} (f : A -> A) (l : list A) (i j : nat) :
  j <> i -> nth_error (adjust f i l) j = nth_error l j.
Proof.
  revert i j; induction l as [|a l IH]; intros [|i] [|j] H; simpl; auto.
  congruence.
Qed.

Lemma map_adjust {A B} (g : A -> B) (f : A -> A) (l : list A) (i : nat) :
  (forall x, g (f x) = g x) -> map g (adjust f i l) = map g l.
Proof.
  intros Hf. revert i; induction l as [|a l IH]; intros [|i]; simpl; auto.
  - now rewrite Hf.
  - now rewrite IH.
Qed.

Lemma Forall_adjust {A} (P : A -> Prop) (f : A -> A) (l : list A) (i : nat) :
  (forall x, P x -> P (f x)) -> Forall P l -> Forall P (adjust f i l).
Proof.
  intros Hf H. revert i; induction H as [|a l Ha Hl IH]; intros [|i]; simpl;
    constructor; auto.
Qed.

(** Changing forms without changing their dates keeps a listing sorted. *)
Lemma adjust_sorted (f : FormMetadata -> FormMetadata) l i :
  (forall x, createdAtTime (f x) = createdAtTime x) ->
  StronglySorted notOlder l -> StronglySorted notOlder (adjust f i l).
Proof.
  intros Hf H. revert i; induction H as [|a l Hs IH Ha]; intros [|i]; simpl;
    try constructor; auto.
  - eapply Forall_impl; [|exact Ha]. intros b. unfold notOlder.
    now rewrite Hf.
  - apply Forall_adjust; [|exact Ha]. intros b. unfold notOlder.
    now rewrite Hf.
Qed.

(** Sorting a listing that is sorted changes nothing. *)
Lemma sort_of_sorted (l : list FormMetadata) :
  StronglySorted notOlder l -> ArraySort.sort byCreatedAtDescending l = l.
Proof.
  induction 1 as [|a l Hs IH Ha]; simpl; [reflexivity|].
  fold (ArraySort.sort byCreatedAtDescending l). rewrite IH.
  destruct Ha as [|b l Hb _]; simpl; [reflexivity|].
  unfold ArraySort.comesAfter, byCreatedAtDescending.
  unfold notOlder, createdAtTime in Hb.
  destruct (getTime (createdAt a)), (getTime (createdAt b)); try tauto.
  destruct (Z.ltb_spec 0 (z0 - z)); [lia | reflexivity].
Qed.

(** X6.  An analysis for an identifier under which no form is listed is
    dropped: nothing is written, and the listing is as before. *)
Theorem analysis_of_unknown_form (formId responseData analysisResult : jsstring)
    (s : LocalStorage.t) :
  (forall f, In f (fst (getFormsMetadata s)) -> id f <> formId) ->
  updateFormAnalysis formId responseData analysisResult s
  = snd (getFormsMetadata s) /\
  fst (getFormsMetadata
         (updateFormAnalysis formId responseData analysisResult s))
  = fst (getFormsMetadata s).
Proof.
  intros Hnone. unfold updateFormAnalysis.
  destruct (getFormsMetadata s) as [forms s1] eqn:Eget. simpl in *.
  assert (E : findIndex (fun f => str_eqb (id f) formId) forms = None).
  { apply findIndex_None. intros f Hf. now apply str_eqb_neq, Hnone. }
  rewrite E. split; [reflexivity|].
  unfold getFormsMetadata in *.
  destruct (formulateAiForms s) as [[[|c raw]|stored]|] eqn:Es;
    injection Eget as <- <-; simpl; rewrite ?Es; reflexivity.
Qed.

Lemma analysis_of_unknown_form_witness :
  let s :=
    {| formulateAiForms :=
         Some (Json
           [{| id := js "db-1"; title := js "First"; questionCount := 1;
               createdAt := {| text := js "2024-01-01T00:00:00.000Z";
                               getTime := Some 1704067200000%Z |};
               responseData := None; analysisResult := None;
               editUrl := None; publishedUrl := None |}]);
       notion_survey_email_history := None |} in
  updateFormAnalysis (js "db-9") (js "a,b") (js "Fine.") s
  = snd (getFormsMetadata s) /\
  fst (getFormsMetadata
         (updateFormAnalysis (js "db-9") (js "a,b") (js "Fine.") s))
  = fst (getFormsMetadata s).
Proof.
  intros s. apply analysis_of_unknown_form.
  intros f [<-|[]]. discriminate.
Defined.

(** X7.  With dates that are all known, attaching an analysis to a listed
    form changes the first form listed under that identifier, and nothing
    else: that form gets the response data and the analysis and keeps its
    other fields, every other position of the listing holds the form it
    held, and so the identifiers and their order are unchanged. *)
Theorem analysis_is_attached (formId responseData analysisResult : jsstring)
    (s : LocalStorage.t) (formIndex : nat) :
  Forall (fun f => createdAtTime f <> None) (fst (getFormsMetadata s)) ->
  findIndex (fun f => str_eqb (id f) formId) (fst (getFormsMetadata s))
  = Some formIndex ->
  let before := fst (getFormsMetadata s) in
  let after :=
    fst (getFormsMetadata
           (updateFormAnalysis formId responseData analysisResult s)) in
  (exists form,
      nth_error before formIndex = Some form /\ id form = formId /\
      nth_error after formIndex
      = Some (withAnalysis responseData analysisResult form)) /\
  (forall j, j <> formIndex -> nth_error after j = nth_error before j) /\
  (forall j form, j < formIndex -> nth_error before j = Some form ->
                  id form <> formId) /\
  map id after = map id before.
Proof.
  intros Hvalid Hfind before after.
  assert (Hafter : after
                   = adjust (withAnalysis responseData analysisResult)
                       formIndex before).
  { unfold after, updateFormAnalysis. fold before in Hfind.
    pose proof (getFormsMetadata_sorted s Hvalid) as Hsorted.
    fold before in Hsorted.
    destruct (getFormsMetadata s) as [forms s1]. simpl in *.
    unfold before in *. rewrite Hfind. unfold getFormsMetadata, setForms.
    simpl. apply sort_of_sorted. now apply adjust_sorted. }
  destruct (findIndex_Some _ _ Hfind) as [(form & Hform & Hid) Hfirst].
  split; [|split; [|split]].
  - exists form. split; [exact Hform|]. split; [now apply str_eqb_eq|].
    rewrite Hafter, nth_error_adjust_same. unfold before. now rewrite Hform.
  - intros j Hj. rewrite Hafter. now apply nth_error_adjust_other.
  - intros j f Hj Hf. apply str_eqb_neq. now apply (Hfirst j f).
  - rewrite Hafter. now apply map_adjust.
Qed.

Lemma analysis_is_attached_witness :
  let form name date time :=
    {| id := name; title := js "Survey"; questionCount := 3;
       createdAt := {| text := date; getTime := Some time |};
       responseData := None; analysisResult := None;
       editUrl := None; publishedUrl := None |} in
  let s :=
    {| formulateAiForms :=
         Some (Json
           [form (js "db-1") (js "2024-01-01T00:00:00.000Z") 1704067200000%Z;
            form (js "db-2") (js "2024-01-02T00:00:00.000Z") 1704153600000%Z]);
       notion_survey_email_history := None |} in
  map id
    (fst (getFormsMetadata
            (updateFormAnalysis (js "db-1") (js "a,b") (js "Fine.") s)))
  = [js "db-2"; js "db-1"] /\
  map responseData
    (fst (getFormsMetadata
            (updateFormAnalysis (js "db-1") (js "a,b") (js "Fine.") s)))
  = [None; Some (js "a,b")].
Proof.
  intros form s.
  destruct (@analysis_is_attached (js "db-1") (js "a,b") (js "Fine.") s 1)
    as (_ & _ & _ & Hids).
  - repeat constructor; discriminate.
  - reflexivity.
  - split; [exact Hids | reflexivity].
Defined.

(* ================================================================== *)
(** * The recently used e-mail addresses *)
(* ================================================================== *)

Lemma slice_from_0 {A} (n : nat) (l : list A) : slice 0 n l = firstn n l.
Proof. unfold slice. simpl. now rewrite Nat.sub_0_r. Qed.

Lemma In_firstn {A} (n : nat) (l : list A) (x : A) :
  In x (firstn n l) -> In x l.
Proof.
  intros H. rewrite <- (firstn_skipn n l). apply in_or_app. now left.
Qed.

Lemma NoDup_map_firstn {A B} (g : A -> B) (n : nat) (l : list A) :
  NoDup (map g l) -> NoDup (map g (firstn n l)).
Proof.
  rewrite <- (firstn_skipn n l) at 1. rewrite map_app.
  apply NoDup_app_remove_r.
Qed.

Lemma NoDup_map_filter {A B} (g : A -> B) (p : A -> bool) (l : list A) :
  NoDup (map g l) -> NoDup (map g (filter p l)).
Proof.
  induction l as [|a l IH]; simpl; [auto|].
  intros Hnd. inversion_clear Hnd as [|? ? Ha Hnd'].
  destruct (p a); simpl; [|auto].
  constructor; [|auto].
  intros Hin. apply Ha. apply in_map_iff in Hin as (b & Eb & Hb).
  apply filter_In in Hb as [Hb _]. rewrite <- Eb. now apply in_map.
Qed.

Section RecentEmailsFacts.

Import RecentEmails.

Variable toLowerCase : jsstring -> jsstring.

Lemma isRejected_iff (email : jsstring) :
  isRejected email = true <-> ~ In 64%N email.
Proof.
  unfold isRejected. destruct email as [|c email]; [simpl; tauto|].
  rewrite negb_true_iff, <- not_true_iff_false, existsb_exists.
  split.
  - intros H Hin. apply H. exists 64%N. now rewrite N.eqb_refl.
  - intros H (x & Hx & Ex). apply N.eqb_eq in Ex as <-. now apply H.
Qed.

Lemma differsFrom_iff (email e : jsstring) :
  differsFrom toLowerCase email e = true
  <-> toLowerCase e <> toLowerCase email.
Proof.
  unfold differsFrom. now rewrite negb_true_iff, <- str_eqb_neq.
Qed.

(** X8.  An address without an at sign is not recorded: the store is left
    as it is.  Any other address becomes the first of the list; the list
    then holds at most ten addresses, all but the first taken from the
    former list, and none of them equal to the new one when case is
    ignored; while there is room, no other address is lost. *)
Theorem recent_email_added (email : jsstring) (item : Item) :
  (~ In 64%N email -> addRecentEmail toLowerCase email item = item) /\
  (In 64%N email ->
   let before := getRecentEmails item in
   let after := getRecentEmails (addRecentEmail toLowerCase email item) in
   exists rest,
     after = email :: rest /\
     List.length after <= 10 /\
     Forall (fun e => toLowerCase e <> toLowerCase email) rest /\
     (forall e, In e rest -> In e before) /\
     (List.length before < 10 ->
      forall e, In e before -> toLowerCase e <> toLowerCase email ->
                In e rest)).
Proof.
  split.
  - intros H%isRejected_iff. unfold addRecentEmail. now rewrite H.
  - intros Hat before after.
    assert (Hok : isRejected email = false).
    { apply not_true_iff_false. now rewrite isRejected_iff. }
    assert (Hafter : after
              = email :: firstn 9 (filter (differsFrom toLowerCase email) before)).
    { unfold after, addRecentEmail. rewrite Hok. simpl.
      now rewrite slice_from_0. }
    exists (firstn 9 (filter (differsFrom toLowerCase email) before)).
    split; [exact Hafter|]. split; [|split; [|split]].
    + rewrite Hafter. cbn [List.length]. apply le_n_S, firstn_le_length.
    + apply Forall_forall. intros e He%In_firstn.
      apply filter_In in He as [_ He]. now apply differsFrom_iff.
    + intros e He%In_firstn. now apply filter_In in He.
    + intros Hroom e He Hdiff. rewrite firstn_all2.
      * apply filter_In. split; [exact He | now apply differsFrom_iff].
      * pose proof (filter_length_le (differsFrom toLowerCase email) before).
        lia.
Qed.

(** X9.  A list in which no two addresses are equal when case is ignored
    is still such a list after an address has been added or removed. *)
Theorem recent_emails_stay_distinct (email : jsstring) (item : Item) :
  NoDup (map toLowerCase (getRecentEmails item)) ->
  NoDup (map toLowerCase
           (getRecentEmails (addRecentEmail toLowerCase email item))) /\
  NoDup (map toLowerCase
           (getRecentEmails (removeRecentEmail toLowerCase email item))).
Proof.
  intros Hnd. split.
  - unfold addRecentEmail. destruct (isRejected email); [exact Hnd|].
    cbn [getRecentEmails]. rewrite slice_from_0. apply NoDup_map_firstn.
    simpl.
    constructor; [|now apply NoDup_map_filter].
    intros Hin. apply in_map_iff in Hin as (e & Ee & He).
    apply filter_In in He as [_ He]. apply differsFrom_iff in He.
    contradiction.
  - simpl. now apply NoDup_map_filter.
Qed.

(** X10.  After an address has been removed, the list holds no address
    equal to it when case is ignored, and holds the others as before;
    removing it once more changes nothing. *)
Theorem recent_email_removed (email : jsstring) (item : Item) :
  let before := getRecentEmails item in
  let after := getRecentEmails (removeRecentEmail toLowerCase email item) in
  Forall (fun e => toLowerCase e <> toLowerCase email) after /\
  (forall e, toLowerCase e <> toLowerCase email ->
             (In e after <-> In e before)) /\
  after = filter (differsFrom toLowerCase email) before /\
  removeRecentEmail toLowerCase email
    (removeRecentEmail toLowerCase email item)
  = removeRecentEmail toLowerCase email item.
Proof.
  intros before after. split; [|split; [|split]].
  - apply Forall_forall. intros e He. apply filter_In in He as [_ He].
    now apply differsFrom_iff.
  - intros e He. unfold after. simpl. rewrite filter_In.
    rewrite differsFrom_iff. tauto.
  - reflexivity.
  - unfold removeRecentEmail. simpl. do 2 f_equal.
    apply forallb_filter_id, forallb_filter.
Qed.

(** X11.  Of two addresses added one after the other, different even
    when case is ignored, the one added last is first in the list and
    the other one second. *)
Theorem recent_emails_latest_first (first second : jsstring) (item : Item) :
  In 64%N first -> In 64%N second ->
  toLowerCase first <> toLowerCase second ->
  exists rest,
    getRecentEmails
      (addRecentEmail toLowerCase second
         (addRecentEmail toLowerCase first item))
    = second :: first :: rest.
Proof.
  intros H1 H2 Hdiff.
  assert (Hok1 : isRejected first = false)
    by (apply not_true_iff_false; now rewrite isRejected_iff).
  assert (Hok2 : isRejected second = false)
    by (apply not_true_iff_false; now rewrite isRejected_iff).
  unfold addRecentEmail. rewrite Hok1, Hok2. simpl.
  rewrite !slice_from_0. simpl.
  assert (E : differsFrom toLowerCase second first = true)
    by now apply differsFrom_iff.
  rewrite E. simpl. eauto.
Qed.

End RecentEmailsFacts.

Lemma recent_email_added_witness :
  exists rest,
    RecentEmails.getRecentEmails
      (RecentEmails.addRecentEmail asciiLowerCase (js "Ada@Example.org")
         (Some (Json [js "bob@example.org"; js "ada@example.org"])))
    = js "Ada@Example.org" :: rest /\
    Forall (fun e => asciiLowerCase e <> asciiLowerCase (js "Ada@Example.org"))
      rest.
Proof.
  destruct (proj2 (recent_email_added asciiLowerCase (js "Ada@Example.org")
                     (Some (Json [js "bob@example.org";
                                  js "ada@example.org"]))))
    as (rest & Hafter & _ & Hrest & _).
  - simpl. tauto.
  - exists rest. split; [exact Hafter | exact Hrest].
Defined.

Lemma recent_emails_stay_distinct_witness :
  NoDup (map asciiLowerCase
           (RecentEmails.getRecentEmails
              (RecentEmails.addRecentEmail asciiLowerCase
                 (js "Ada@Example.org")
                 (Some (Json [js "bob@example.org";
                              js "ada@example.org"]))))).
Proof.
  destruct (recent_emails_stay_distinct asciiLowerCase
              (js "Ada@Example.org")
              (Some (Json [js "bob@example.org"; js "ada@example.org"])))
    as [Hadded _].
  - simpl. repeat constructor; simpl; intuition discriminate.
  - exact Hadded.
Defined.

Lemma recent_emails_latest_first_witness :
  exists rest,
    RecentEmails.getRecentEmails
      (RecentEmails.addRecentEmail asciiLowerCase (js "bob@example.org")
         (RecentEmails.addRecentEmail asciiLowerCase (js "ada@example.org")
            None))
    = js "bob@example.org" :: js "ada@example.org" :: rest.
Proof.
  apply recent_emails_latest_first.
  - simpl. tauto.
  - simpl. tauto.
  - discriminate.
Defined.

Lemma recent_email_removed_witness :
  RecentEmails.getRecentEmails
    (RecentEmails.removeRecentEmail asciiLowerCase (js "ADA@example.org")
       (Some (Json [js "bob@example.org"; js "ada@example.org"])))
  = [js "bob@example.org"] /\
  In (js "bob@example.org")
    (RecentEmails.getRecentEmails
       (RecentEmails.removeRecentEmail asciiLowerCase (js "ADA@example.org")
          (Some (Json [js "bob@example.org"; js "ada@example.org"])))).
Proof.
  split; [reflexivity|].
  apply (proj1 (proj2 (recent_email_removed asciiLowerCase
                         (js "ADA@example.org")
                         (Some (Json [js "bob@example.org";
                                      js "ada@example.org"]))))).
  - discriminate.
  - simpl. tauto.
Defined.

(* ================================================================== *)
(** * The history of e-mail addresses *)
(* ================================================================== *)

Section SortedByRelation.
Context {A : Type} (comparefn : A -> A -> option Z) (R : A -> A -> Prop).
Hypothesis R_trans : forall a b c, R a b -> R b c -> R a c.
Hypothesis R_comparefn :
  forall a b, if ArraySort.comesAfter comparefn a b then R b a else R a b.

Lemma insert_StronglySorted (a : A) (l : list A) :
  StronglySorted R l -> StronglySorted R (ArraySort.insert comparefn a l).
Proof.
  induction 1 as [|b l Hs IH Hb]; simpl.
  - repeat constructor.
  - pose proof (R_comparefn a b) as Hab.
    destruct (ArraySort.comesAfter comparefn a b).
    + constructor; [exact IH|].
      rewrite (insert_Permutation comparefn a l). now constructor.
    + constructor; [now constructor|].
      constructor; [exact Hab|].
      eapply Forall_impl; [|exact Hb]. intros c. now apply R_trans.
Qed.

(** A comparator that agrees with an ordering sorts by that ordering. *)
Lemma sort_StronglySorted (l : list A) :
  StronglySorted R (ArraySort.sort comparefn l).
Proof.
  induction l as [|a l IH]; simpl; [constructor|].
  now apply insert_StronglySorted.
Qed.

End SortedByRelation.

Lemma StronglySorted_firstn {A} (R : A -> A -> Prop) (n : nat) (l : list A) :
  StronglySorted R l -> StronglySorted R (firstn n l).
Proof.
  intros H. revert n; induction H as [|a l Hs IH Ha]; intros [|n]; simpl;
    try constructor; auto.
  apply Forall_forall. intros b Hb%In_firstn.
  now apply (proj1 (Forall_forall _ _) Ha).
Qed.

(** In a sorted list, what stands before an element is related to it. *)
Lemma StronglySorted_before {A} (R : A -> A -> Prop) (l1 l2 : list A) (x : A) :
  StronglySorted R (l1 ++ x :: l2) -> Forall (fun y => R y x) l1.
Proof.
  induction l1 as [|a l1 IH]; simpl; intros H; [constructor|].
  apply StronglySorted_inv in H as [Hs Ha]. constructor; [|auto].
  apply (proj1 (Forall_forall _ _) Ha). apply in_or_app. right. now left.
Qed.

Import EmailHistory.

Lemma recordEmail_nil (now address : jsstring) :
  recordEmail now [] address
  = [{| email := address; lastUsed := now; frequency := 1 |}].
Proof. reflexivity. Qed.

(** The history is searched from its first entry on. *)
Lemma recordEmail_cons (now address : jsstring) (h : EmailHistoryItem)
    (history : list EmailHistoryItem) :
  recordEmail now (h :: history) address
  = if str_eqb (email h) address
    then {| email := email h; lastUsed := now;
            frequency := increment (frequency h) |}
         :: history
    else h :: recordEmail now history address.
Proof.
  unfold recordEmail. simpl. destruct (str_eqb (email h) address);
    [reflexivity|].
  now destruct (findIndex _ history).
Qed.

Lemma str_eqb_swap (a b : jsstring) : str_eqb a b = str_eqb b a.
Proof.
  destruct (str_eqb b a) eqn:E.
  - apply str_eqb_eq. symmetry. now apply str_eqb_eq.
  - apply str_eqb_neq. intros ->. now rewrite str_eqb_refl in E.
Qed.

(** Below 2^53 the increment adds one; at 2^53 it adds nothing. *)
Lemma increment_exact (count : nat) :
  (N.of_nat count < 9007199254740992)%N -> increment count = S count.
Proof.
  intros H%N.ltb_lt. unfold increment. cbv zeta. now rewrite H.
Qed.

Lemma increment_rounded (count : nat) :
  N.of_nat count = 9007199254740992%N -> increment count = count.
Proof.
  intros H. unfold increment. cbv zeta. now rewrite H.
Qed.

(** Recording an address increments its frequency and leaves the
    frequencies of the other addresses alone. *)
Lemma frequencyOf_recordEmail (now address e : jsstring) history :
  frequencyOf e (recordEmail now history address)
  = if str_eqb e address then increment (frequencyOf e history)
    else frequencyOf e history.
Proof.
  induction history as [|h history IH].
  - rewrite recordEmail_nil. unfold frequencyOf. simpl.
    rewrite (str_eqb_swap address e). now destruct (str_eqb e address).
  - rewrite recordEmail_cons. unfold frequencyOf in *.
    destruct (str_eqb (email h) address) eqn:Eh; simpl.
    + apply str_eqb_eq in Eh. rewrite Eh, (str_eqb_swap address e).
      now destruct (str_eqb e address).
    + destruct (str_eqb (email h) e) eqn:Ee; [|exact IH].
      apply str_eqb_eq in Ee. rewrite <- Ee, Eh. reflexivity.
Qed.

Lemma map_email_recordEmail (now address : jsstring) history :
  map email (recordEmail now history address) = map email history \/
  (~ In address (map email history) /\
   map email (recordEmail now history address)
   = map email history ++ [address]).
Proof.
  induction history as [|h history IH].
  - right. split; [tauto | reflexivity].
  - rewrite recordEmail_cons.
    destruct (str_eqb (email h) address) eqn:Eh; simpl; [now left|].
    apply str_eqb_neq in Eh.
    destruct IH as [E | [Hnew E]]; rewrite E; [now left|].
    right. split; [|reflexivity]. intros [H|H]; contradiction.
Qed.

Lemma recordEmail_NoDup (now address : jsstring) history :
  NoDup (map email history) ->
  NoDup (map email (recordEmail now history address)).
Proof.
  intros Hnd.
  destruct (map_email_recordEmail now address history) as [E | [Hnew E]];
    rewrite E; [exact Hnd|].
  apply NoDup_app; [exact Hnd | repeat constructor; tauto |].
  intros x Hx [<-|[]]. contradiction.
Qed.

Lemma recordEmail_length (now address : jsstring) history :
  List.length (recordEmail now history address) <= S (List.length history).
Proof.
  rewrite <- !(length_map email).
  destruct (map_email_recordEmail now address history) as [E | [_ E]];
    rewrite E; [lia|].
  rewrite length_app. simpl. lia.
Qed.

(** Recording counts, as long as the count stays within 2^53. *)
Lemma recorded_frequencies (now : jsstring) (emails : list jsstring) :
  forall history e,
    countedExactly (frequencyOf e history + occurrences e emails) ->
    frequencyOf e (fold_left (recordEmail now) emails history)
    = frequencyOf e history + occurrences e emails.
Proof.
  unfold occurrences, countedExactly.
  induction emails as [|address emails IH]; intros history e; simpl;
    [lia|].
  intros Hexact. rewrite IH; rewrite frequencyOf_recordEmail;
    destruct (str_eqb e address); simpl in *;
    try rewrite increment_exact; lia.
Qed.

Lemma recorded_NoDup (now : jsstring) (emails : list jsstring) :
  forall history,
    NoDup (map email history) ->
    NoDup (map email (fold_left (recordEmail now) emails history)).
Proof.
  induction emails as [|address emails IH]; intros history H; simpl; auto.
  now apply IH, recordEmail_NoDup.
Qed.

Lemma recorded_length (now : jsstring) (emails : list jsstring) :
  forall history,
    List.length (fold_left (recordEmail now) emails history)
    <= List.length history + List.length emails.
Proof.
  induction emails as [|address emails IH]; intros history; simpl; [lia|].
  specialize (IH (recordEmail now history address)).
  pose proof (recordEmail_length now address history). lia.
Qed.

(** With one entry per address, the frequency of an address is that of
    its entry. *)
Lemma frequencyOf_In (h : EmailHistoryItem) history :
  NoDup (map email history) -> In h history ->
  frequencyOf (email h) history = frequency h.
Proof.
  unfold frequencyOf.
  induction history as [|x history IH]; simpl; [tauto|].
  intros Hnd Hin. inversion_clear Hnd as [|? ? Hx Hnd'].
  destruct (str_eqb (email x) (email h)) eqn:E.
  - destruct Hin as [->|Hin]; [reflexivity|].
    apply str_eqb_eq in E. exfalso. apply Hx. rewrite E. now apply in_map.
  - destruct Hin as [->|Hin]; [now rewrite str_eqb_refl in E | auto].
Qed.

Lemma frequencyOf_absent (e : jsstring) history :
  ~ In e (map email history) -> frequencyOf e history = 0.
Proof.
  unfold frequencyOf. intros H.
  destruct (find _ history) as [h|] eqn:E; [|reflexivity].
  apply find_some in E as [Hin Eh]. apply str_eqb_eq in Eh.
  exfalso. apply H. rewrite <- Eh. now apply in_map.
Qed.

(** The frequencies do not depend on the order of the entries. *)
Lemma frequencyOf_Permutation (e : jsstring) history history' :
  NoDup (map email history) -> Permutation history history' ->
  frequencyOf e history = frequencyOf e history'.
Proof.
  intros Hnd Hperm.
  assert (Hnd' : NoDup (map email history'))
    by (now rewrite <- (Permutation_map email Hperm)).
  destruct (in_dec (list_eq_dec N.eq_dec) e (map email history)) as [Hin|Hout].
  - apply in_map_iff in Hin as (h & <- & Hh).
    rewrite (frequencyOf_In h history Hnd Hh).
    symmetry. apply (frequencyOf_In h history' Hnd').
    now apply (Permutation_in _ Hperm).
  - rewrite (frequencyOf_absent e history Hout). symmetry.
    apply frequencyOf_absent.
    now rewrite <- (Permutation_map email Hperm).
Qed.

Section EmailHistoryFacts.

Variable timeOf : jsstring -> option Z.

Lemma byFrequencyThenRecency_ranks (a b : EmailHistoryItem) :
  if ArraySort.comesAfter (byFrequencyThenRecency timeOf) a b
  then usedAtLeastAsOften b a else usedAtLeastAsOften a b.
Proof.
  unfold ArraySort.comesAfter, byFrequencyThenRecency, usedAtLeastAsOften.
  destruct (Nat.eqb_spec (frequency b) (frequency a)) as [E|E]; simpl.
  - rewrite E.
    destruct (timeOf (lastUsed b)), (timeOf (lastUsed a)); try lia.
    destruct (0 <? _)%Z; lia.
  - destruct (Z.ltb_spec 0 (Z.of_nat (frequency b) - Z.of_nat (frequency a)));
      lia.
Qed.

(** What is stored after e-mail addresses have been recorded. *)
Lemma getEmailHistory_saveEmailToHistory (now : jsstring)
    (emails : list jsstring) (s : LocalStorage.t) :
  fst (getEmailHistory (saveEmailToHistory timeOf now emails s))
  = firstn MAX_EMAIL_HISTORY
      (ArraySort.sort (byFrequencyThenRecency timeOf)
         (fold_left (recordEmail now) emails (fst (getEmailHistory s)))).
Proof.
  unfold saveEmailToHistory.
  rewrite (surjective_pairing (getEmailHistory s)).
  rewrite slice_from_0. reflexivity.
Qed.

Lemma saved_history_ranked (now : jsstring) (emails : list jsstring)
    (s : LocalStorage.t) :
  StronglySorted usedAtLeastAsOften
    (fst (getEmailHistory (saveEmailToHistory timeOf now emails s))).
Proof.
  rewrite getEmailHistory_saveEmailToHistory.
  apply StronglySorted_firstn, sort_StronglySorted.
  - unfold usedAtLeastAsOften. intros a b c. lia.
  - apply byFrequencyThenRecency_ranks.
Qed.

Lemma saved_history_NoDup (now : jsstring) (emails : list jsstring)
    (s : LocalStorage.t) :
  NoDup (map email (fst (getEmailHistory s))) ->
  NoDup (map email
           (fst (getEmailHistory (saveEmailToHistory timeOf now emails s)))).
Proof.
  intros Hnd. rewrite getEmailHistory_saveEmailToHistory.
  apply NoDup_map_firstn.
  rewrite (Permutation_map email (sort_Permutation _ _)).
  now apply recorded_NoDup.
Qed.

(** X12.  With dates that are all known, so that the comparator is an
    ordering, the history after e-mail addresses have been recorded holds
    at most ten entries, ranked by frequency, the most used first; the
    forms in the store are not touched. *)
Theorem email_history_bounded_and_ranked (now : jsstring)
    (emails : list jsstring) (s : LocalStorage.t) :
  timeOf now <> None ->
  Forall (fun h => timeOf (lastUsed h) <> None) (fst (getEmailHistory s)) ->
  let history :=
    fst (getEmailHistory (saveEmailToHistory timeOf now emails s)) in
  List.length history <= 10 /\
  StronglySorted usedAtLeastAsOften history /\
  formulateAiForms (saveEmailToHistory timeOf now emails s)
  = formulateAiForms s.
Proof.
  intros _ _ history. unfold history.
  split; [|split].
  - rewrite getEmailHistory_saveEmailToHistory. apply firstn_le_length.
  - apply saved_history_ranked.
  - unfold saveEmailToHistory, getEmailHistory.
    now destruct (notion_survey_email_history s) as [[raw|h]|].
Qed.

(** X13.  A history with one entry per address still has one entry per
    address after addresses have been recorded, whether they were known
    or new and however often they are repeated. *)
Theorem email_history_one_entry_per_address (now : jsstring)
    (emails : list jsstring) (s : LocalStorage.t) :
  NoDup (map email (fst (getEmailHistory s))) ->
  NoDup (map email
           (fst (getEmailHistory (saveEmailToHistory timeOf now emails s)))).
Proof.
  intros Hnd. rewrite getEmailHistory_saveEmailToHistory.
  apply NoDup_map_firstn.
  assert (Hperm : Permutation
            (ArraySort.sort (byFrequencyThenRecency timeOf)
               (fold_left (recordEmail now) emails (fst (getEmailHistory s))))
            (fold_left (recordEmail now) emails (fst (getEmailHistory s))))
    by apply sort_Permutation.
  rewrite (Permutation_map email Hperm).
  now apply recorded_NoDup.
Qed.

(** X14.  While the history has room, recording counts: with one entry
    per address before, and no more than ten entries and addresses in
    all, the frequency of an address afterwards is its frequency before
    plus the number of times it was recorded, provided that this sum is
    at most 2^53, the range in which a number counts by steps of one. *)
Theorem email_frequencies_count (now : jsstring) (emails : list jsstring)
    (s : LocalStorage.t) :
  NoDup (map email (fst (getEmailHistory s))) ->
  List.length (fst (getEmailHistory s)) + List.length emails <= 10 ->
  forall e,
    countedExactly
      (frequencyOf e (fst (getEmailHistory s)) + occurrences e emails) ->
    frequencyOf e
      (fst (getEmailHistory (saveEmailToHistory timeOf now emails s)))
    = frequencyOf e (fst (getEmailHistory s)) + occurrences e emails.
Proof.
  intros Hnd Hroom e Hexact. rewrite getEmailHistory_saveEmailToHistory.
  rewrite firstn_all2.
  - rewrite <- (recorded_frequencies now emails _ e Hexact).
    symmetry. apply frequencyOf_Permutation.
    + now apply recorded_NoDup.
    + symmetry. apply sort_Permutation.
  - rewrite (Permutation_length (sort_Permutation _ _)).
    pose proof (recorded_length now emails (fst (getEmailHistory s))).
    unfold MAX_EMAIL_HISTORY. lia.
Qed.

(** In a list where [b] occurs once, a prefix that holds [b] reaches
    beyond every element that stands before [b]. *)
Lemma firstn_reaches {A} (n : nat) (l1 l2 : list A) (b : A) :
  ~ In b l1 -> In b (firstn n (l1 ++ b :: l2)) ->
  exists l3, firstn n (l1 ++ b :: l2) = l1 ++ b :: l3.
Proof.
  revert n; induction l1 as [|a l1 IH]; intros [|n] Hb Hin; simpl in *;
    try tauto.
  - eauto.
  - destruct Hin as [->|Hin]; [tauto|].
    destruct (IH n) as [l3 E]; [tauto | exact Hin|].
    exists l3. now rewrite E.
Qed.

(** X15.  Of two addresses of the history, the one used more often is
    suggested first: when the history had one entry per address and
    dates that are all known, after addresses have been recorded every
    list of suggestions that holds the less used of two addresses holds
    the more used one before it. *)
Theorem frequent_emails_ranked (now : jsstring) (emails : list jsstring)
    (s : LocalStorage.t) (a b : jsstring) (limit : nat) :
  let s' := saveEmailToHistory timeOf now emails s in
  timeOf now <> None ->
  Forall (fun h => timeOf (lastUsed h) <> None) (fst (getEmailHistory s)) ->
  NoDup (map email (fst (getEmailHistory s))) ->
  frequencyOf b (fst (getEmailHistory s'))
  < frequencyOf a (fst (getEmailHistory s')) ->
  In b (getFrequentEmails limit s') ->
  exists l1 l2 l3, getFrequentEmails limit s' = l1 ++ a :: l2 ++ b :: l3.
Proof.
  intros s' Hnow Hdates Hnd Hlt Hb.
  pose proof (saved_history_NoDup now emails s Hnd) as Hnd'.
  pose proof (saved_history_ranked now emails s) as Hsorted.
  fold s' in Hnd', Hsorted.
  unfold getFrequentEmails in *. rewrite slice_from_0 in *.
  rewrite <- firstn_map in *.
  set (history := fst (getEmailHistory s')) in *.
  (* the entry of [a] *)
  assert (Ha : In a (map email history)).
  { destruct (in_dec (list_eq_dec N.eq_dec) a (map email history)) as [H|H];
      [exact H|].
    rewrite (frequencyOf_absent a history H) in Hlt. lia. }
  apply in_map_iff in Ha as (ha & <- & Ha).
  assert (Hb' : In b (map email history)) by (eapply In_firstn; exact Hb).
  apply in_map_iff in Hb' as (hb & <- & Hb').
  rewrite (frequencyOf_In ha history Hnd' Ha),
    (frequencyOf_In hb history Hnd' Hb') in Hlt.
  destruct (in_split _ _ Ha) as (h1 & h2 & Ehistory).
  rewrite Ehistory in Hsorted, Hb'.
  apply in_app_or in Hb' as [Hb'|[->|Hb']].
  - apply StronglySorted_before in Hsorted.
    apply (proj1 (Forall_forall _ _) Hsorted) in Hb'.
    unfold usedAtLeastAsOften in Hb'. lia.
  - lia.
  - destruct (in_split _ _ Hb') as (h3 & h4 & Eh2).
    rewrite Ehistory, Eh2 in Hb, Hnd' |- *.
    rewrite !map_app in *. simpl in *. rewrite !map_app in *. simpl in *.
    replace (map email h1 ++ email ha :: map email h3 ++ email hb :: map email h4)
      with ((map email h1 ++ email ha :: map email h3)
            ++ email hb :: map email h4) in *
      by (now rewrite <- app_assoc).
    pose proof (NoDup_remove_2 _ _ _ Hnd') as Hfresh.
    rewrite in_app_iff in Hfresh.
    destruct (firstn_reaches limit (map email h1 ++ email ha :: map email h3)
                (map email h4) (email hb)) as (l3 & E);
      [tauto | exact Hb |].
    exists (map email h1), (map email h3), l3.
    now rewrite E, <- app_assoc.
Qed.

End EmailHistoryFacts.

Lemma email_history_one_entry_per_address_witness :
  NoDup
    (map email
       (fst (getEmailHistory
               (saveEmailToHistory (fun _ => Some 1704067200000%Z)
                  (js "2024-01-01T00:00:00.000Z")
                  [js "a@x.com"; js "b@x.com"; js "a@x.com"]
                  {| formulateAiForms := None;
                     notion_survey_email_history := None |})))).
Proof.
  apply email_history_one_entry_per_address. simpl. constructor.
Defined.

Lemma email_frequencies_count_witness :
  frequencyOf (js "a@x.com")
    (fst (getEmailHistory
            (saveEmailToHistory (fun _ => Some 1704067200000%Z)
               (js "2024-01-01T00:00:00.000Z")
               [js "a@x.com"; js "b@x.com"; js "a@x.com"]
               {| formulateAiForms := None;
                  notion_survey_email_history := None |})))
  = 0 + 2.
Proof.
  apply (email_frequencies_count (fun _ => Some 1704067200000%Z)
           (js "2024-01-01T00:00:00.000Z")
           [js "a@x.com"; js "b@x.com"; js "a@x.com"]
           {| formulateAiForms := None; notion_survey_email_history := None |}).
  - simpl. constructor.
  - simpl. lia.
  - unfold countedExactly. vm_compute. discriminate.
Defined.

(** After "a@x.com", "b@x.com" and "a@x.com" again have been recorded in
    an empty history, the first is suggested before the second. *)
Lemma frequent_emails_ranked_witness :
  let s' :=
    saveEmailToHistory (fun _ => Some 1704067200000%Z)
      (js "2024-01-01T00:00:00.000Z")
      [js "a@x.com"; js "b@x.com"; js "a@x.com"]
      {| formulateAiForms := None; notion_survey_email_history := None |} in
  getFrequentEmails 5 s' = [js "a@x.com"; js "b@x.com"] /\
  exists l1 l2 l3,
    getFrequentEmails 5 s' = l1 ++ js "a@x.com" :: l2 ++ js "b@x.com" :: l3.
Proof.
  intros s'. split; [reflexivity|].
  apply (frequent_emails_ranked (fun _ => Some 1704067200000%Z)
           (js "2024-01-01T00:00:00.000Z")
           [js "a@x.com"; js "b@x.com"; js "a@x.com"]
           {| formulateAiForms := None; notion_survey_email_history := None |}
           (js "a@x.com") (js "b@x.com") 5).
  - discriminate.
  - simpl. constructor.
  - simpl. constructor.
  - vm_compute. lia.
  - vm_compute. tauto.
Defined.

(* ================================================================== *)
(** * The whole round trip through a schema *)
(* ================================================================== *)

Lemma indexed_cons (index : nat) (q : Question) (questions : list Question) :
  indexed index (q :: questions) = (index, q) :: indexed (S index) questions.
Proof. reflexivity. Qed.

(** The numeral of a number starts with a digit. *)
Lemma ToString_nat_digits (n : nat) :
  exists d ds,
    ToString_nat n = d :: ds /\ isDigit d = true /\
    Forall (fun c => isDigit c = true) ds.
Proof.
  unfold ToString_nat. pose proof (digits_isDigit (Nat.to_uint n)) as H.
  destruct (digits (Nat.to_uint n)) as [|d ds] eqn:E.
  - exfalso. destruct (Nat.to_uint n) eqn:En; try discriminate E.
    pose proof (DecimalNat.Unsigned.of_to n) as Hn. rewrite En in Hn.
    simpl in Hn. subst n. discriminate En.
  - inversion_clear H. eauto.
Qed.

(** The text of a question is read back from its property name exactly
    when it is not empty and holds no line terminator. *)
Lemma questionMatch_propertyName (index : nat) (q : Question) :
  questionMatch (propertyName index q)
  = if textSurvives (questionText q) then Some (questionText q) else None.
Proof.
  unfold propertyName.
  destruct (ToString_nat_digits (index + 1)) as (d & ds & -> & Hd & Hds).
  change (js "Q" ++ (d :: ds) ++ js ": " ++ questionText q)
    with (81%N :: d :: ds ++ 58%N :: 32%N :: questionText q).
  unfold questionMatch. rewrite Hd. simpl.
  rewrite dropDigits_run by exact Hds.
  destruct (questionText q) as [|c text]; reflexivity.
Qed.

Lemma entryOf_readBack iq entry :
  entryOf iq entry ->
  questionOfProperty (fst entry) (snd entry) = readBack (fst iq) (snd iq).
Proof.
  destruct iq as [index q], entry as [name prop].
  intros [Hname [g Hprop]]. simpl in *. subst name prop.
  unfold questionOfProperty, readBack.
  rewrite questionMatch_propertyName.
  unfold questionToNotionProperty.
  destruct (type q); simpl;
    try (destruct (textSurvives (questionText q)); reflexivity);
    pose proof (optionNames_colorOptions (optionsOrEmpty q) g) as H;
    destruct (colorOptions (optionsOrEmpty q) g) as [opts g']; simpl in *;
    rewrite H; destruct (textSurvives (questionText q)); reflexivity.
Qed.

Lemma round_trip_readBack (questions : list Question) (g : Random) :
  getNotionDatabaseSchema_questions
    (fst (createNotionSurveyDatabase_properties questions g))
  = map (fun iq => readBack (fst iq) (snd iq)) (indexed 0 questions).
Proof.
  destruct (schema_round_trip questions g) as (added & Hadded & ->).
  induction Hadded as [|iq entry iqs added H _ IH]; simpl; [reflexivity|].
  now rewrite (entryOf_readBack H), IH.
Qed.

(** X16.  Reading the schema made for a list of questions gives the
    questions back in their order, each one changed in the same way
    whatever colours were drawn: the text is kept when it is not empty and
    has no line break, and is otherwise replaced by the whole property
    name; PARAGRAPH_TEXT and TIME become TEXT; the options are kept for
    MULTIPLE_CHOICE and CHECKBOX and emptied otherwise; the question is
    no longer required. *)
Theorem schema_round_trip_complete (questions : list Question) (g : Random) :
  getNotionDatabaseSchema_questions
    (fst (createNotionSurveyDatabase_properties questions g))
  = map (fun iq => readBack (fst iq) (snd iq)) (indexed 0 questions).
Proof.
  destruct (createNotionSurveyDatabase_entries questions g)
    as (added & E & Hadded).
  unfold getNotionDatabaseSchema_questions.
  rewrite E, collectQuestions_spec, filter_app. simpl.
  rewrite (entryOf_not_system Hadded). clear E.
  induction Hadded as [|iq entry iqs added H _ IH]; simpl; [reflexivity|].
  now rewrite (entryOf_readBack H), IH.
Qed.

Lemma propertyName_longer (index : nat) (q : Question) :
  propertyName index q <> questionText q.
Proof.
  intros E. apply (f_equal (@List.length N)) in E.
  unfold propertyName in E. rewrite !length_app in E. simpl in E. lia.
Qed.

Lemma readBack_fixed (index : nat) (q : Question) :
  readBack index q = q <-> survivesRoundTrip q.
Proof.
  unfold survivesRoundTrip.
  pose proof (@propertyName_longer index q) as Hlong.
  destruct q as [text kind opts required]. unfold readBack in *. simpl in *.
  split.
  - intros [= Htext Hkind Hopts Hreq].
    destruct (textSurvives text); [|contradiction].
    split; [reflexivity|].
    split; [now destruct kind|]. split; [now destruct kind|].
    split; [now symmetry|]. rewrite <- Hopts.
    eexists. split; [reflexivity|]. now destruct kind.
  - intros (Htext & Hpara & Htime & -> & (o & -> & Ho)).
    rewrite Htext. unfold optionsOrEmpty. simpl.
    destruct kind; try contradiction; try reflexivity;
      rewrite Ho by discriminate; reflexivity.
Qed.

(** X17.  The round trip gives back exactly the questions it was given
    if and only if every one of them has a text that is not empty and has
    no line break, is not of kind PARAGRAPH_TEXT or TIME, is not
    required, and has a list of options, which is empty unless the kind
    is MULTIPLE_CHOICE or CHECKBOX. *)
Theorem schema_round_trip_identity (questions : list Question) (g : Random) :
  getNotionDatabaseSchema_questions
    (fst (createNotionSurveyDatabase_properties questions g))
  = questions
  <-> Forall survivesRoundTrip questions.
Proof.
  rewrite round_trip_readBack. generalize 0.
  induction questions as [|q questions IH]; intros index.
  - split; [constructor | reflexivity].
  - rewrite indexed_cons. simpl. split.
    + intros [= Hq Hrest]. constructor.
      * now apply (readBack_fixed index).
      * now apply (IH (S index)).
    + intros H. inversion_clear H as [|? ? Hq Hrest].
      f_equal; [now apply readBack_fixed | now apply IH].
Qed.

(** A survey that comes back as it was, and one that does not: its
    second question has no text, and comes back under the name of its
    property. *)
Lemma schema_round_trip_identity_witness :
  let g := {| draw := fun k => 2 * k; calls := 0 |} in
  let colour :=
    {| questionText := js "Favourite colour?"; type := MULTIPLE_CHOICE;
       options := Some [js "Red"; js "Blue"]; isRequired := false |} in
  let untitled :=
    {| questionText := []; type := TEXT; options := Some [];
       isRequired := false |} in
  getNotionDatabaseSchema_questions
    (fst (createNotionSurveyDatabase_properties [colour] g))
  = [colour] /\
  map questionText
    (getNotionDatabaseSchema_questions
       (fst (createNotionSurveyDatabase_properties [colour; untitled] g)))
  = [js "Favourite colour?"; js "Q2: "].
Proof.
  intros g colour untitled. split.
  - apply (proj2 (schema_round_trip_identity [colour] g)).
    repeat constructor; try discriminate.
    exists [js "Red"; js "Blue"]. split; [reflexivity|]. intros H. now elim H.
  - now rewrite round_trip_readBack.
Defined.

(* ================================================================== *)
(** * Colours, payload keys, identifiers *)
(* ================================================================== *)

Lemma getRandomNotionColor_palette (g : Random) :
  In (fst (getRandomNotionColor g)) colors /\
  calls (snd (getRandomNotionColor g)) = S (calls g).
Proof.
  unfold getRandomNotionColor. cbn [fst snd calls]. split; [|reflexivity].
  apply nth_In, Nat.mod_upper_bound. discriminate.
Qed.

(** X18.  The options of a select property are the labels, in their
    order and as many, each with one of the nine colours of the palette;
    one random number is drawn for each label. *)
Theorem options_get_palette_colours (opts : list jsstring) (g : Random) :
  map name (fst (colorOptions opts g)) = opts /\
  Forall (fun o => In (color o) colors) (fst (colorOptions opts g)) /\
  calls (snd (colorOptions opts g)) = calls g + List.length opts.
Proof.
  revert g; induction opts as [|opt opts IH]; intros g.
  - cbn. repeat split; [constructor | lia].
  - cbn [colorOptions].
    destruct (getRandomNotionColor_palette g) as [Hc Hg].
    destruct (getRandomNotionColor g) as [c g1]. cbn [fst snd] in Hc, Hg.
    destruct (IH g1) as (Hnames & Hcolours & Hcalls).
    destruct (colorOptions opts g1) as [rest g2].
    cbn [fst snd map name List.length] in *.
    split; [now rewrite Hnames | split].
    + constructor; [exact Hc | exact Hcolours].
    + lia.
Qed.

Lemma in_keys_assign {V} (k k' : jsstring) (v : V) (o : Obj V) :
  In k (keys (assign k' v o)) -> (k = k' /\ k' <> __proto__) \/ In k (keys o).
Proof.
  unfold assign. destruct (str_eqb k' __proto__) eqn:E; [now right|].
  apply str_eqb_neq in E. rewrite in_keys_set. tauto.
Qed.

Lemma length_assign {V} (k : jsstring) (v : V) (o : Obj V) :
  List.length (assign k v o) <= S (List.length o).
Proof.
  unfold assign. destruct (str_eqb k __proto__); [lia|].
  induction o as [|[k' v'] o IH]; simpl; [lia|].
  destruct (str_eqb k k'); simpl; lia.
Qed.

(** What the loop over the answers does to the keys. *)
Lemma mapResponses_keys (entries : Obj Value) :
  forall properties result,
    mapResponses entries properties = Returned result ->
    (NoDup (keys properties) -> NoDup (keys result)) /\
    (forall key, In key (keys result) ->
                 In key (keys properties) \/
                 key <> __proto__ /\
                 exists value, In (key, value) entries /\
                               isMapped value = true) /\
    List.length result <= List.length properties + List.length entries.
Proof.
  induction entries as [|[k value] rest IH]; intros properties result.
  - simpl. intros [= ->]. repeat split; auto. lia.
  - rewrite mapResponses_cons. intros Hres.
    assert (Hstep : exists properties',
               mapResponses rest properties' = Returned result /\
               (properties' = properties \/
                isMapped value = true /\
                exists pv, properties' = assign k pv properties)).
    { destruct value as [| | | | | |[iso|]|]; try discriminate Hres;
        simpl in Hres; eexists; (split; [exact Hres|]); eauto. }
    destruct Hstep as (properties' & Hrest & Hstep).
    destruct (IH _ _ Hrest) as (Hnd & Hkeys & Hlen).
    split; [|split].
    + intros H. apply Hnd.
      destruct Hstep as [->|(_ & pv & ->)]; [exact H|].
      now apply NoDup_keys_assign.
    + intros key Hkey. destruct (Hkeys key Hkey) as [Hin|(Hp & v & Hv & Hm)].
      * destruct Hstep as [->|(Hm & pv & ->)]; [now left|].
        apply in_keys_assign in Hin as [[-> Hp]|Hin]; [|now left].
        right. split; [exact Hp|]. exists value. split; [now left | exact Hm].
      * right. split; [exact Hp|]. exists v. split; [now right | exact Hm].
    + destruct Hstep as [->|(_ & pv & ->)]; simpl; [lia|].
      pose proof (length_assign k pv properties). lia.
Qed.

(** X19.  A payload holds nothing but the two generated entries and the
    answers that are strings, numbers, arrays or dates: every key is
    Response ID, Submitted At or the key of such an answer, no key occurs
    twice, none is [__proto__], and there are at most two entries more
    than there are answers. *)
Theorem payload_keys (now : N) (nowISO : jsstring) (responses : Obj Value)
    (properties : Obj PropertyValue) :
  submitNotionResponse_properties now nowISO responses
  = Returned properties ->
  NoDup (keys properties) /\
  (forall key, In key (keys properties) ->
               key = js "Response ID" \/ key = js "Submitted At" \/
               exists value, In (key, value) responses /\
                             isMapped value = true) /\
  ~ In (js "__proto__") (keys properties) /\
  List.length properties <= 2 + List.length responses.
Proof.
  intros Hres. unfold submitNotionResponse_properties in Hres.
  destruct (mapResponses_keys _ _ Hres) as (Hnd & Hkeys & Hlen).
  split; [|split; [|split]].
  - apply Hnd. repeat constructor; simpl; intuition discriminate.
  - intros key Hkey. destruct (Hkeys key Hkey) as [[<-|[<-|[]]]|(_ & H)]; auto.
  - intros Hkey. destruct (Hkeys _ Hkey) as [[E|[E|[]]]|(Hp & _)];
      [discriminate E | discriminate E | now apply Hp].
  - exact Hlen.
Qed.

Lemma payload_keys_witness :
  NoDup
    (keys
       [(js "Response ID", TitleValue (js "Response-1700000000000"));
        (js "Submitted At", DateValue (js "2023-11-14T22:13:20.000Z"));
        (js "Q1: Your name", RichTextValue (js "Ada"))]).
Proof.
  apply (@payload_keys 1700000000000 (js "2023-11-14T22:13:20.000Z")
           [(js "Q1: Your name", VString (js "Ada"));
            (js "__proto__", VString (js "x"));
            (js "Q2: Anything else?", VNull)]).
  reflexivity.
Defined.

Import NotionPage.


Example formatNotionId_of_a_uuid :
  formatNotionId (js "1b2c3d4e-5f60-7a8b-9c0d-e1f2a3b4c5d6")
  = js "1b2c3d4e5f607a8b9c0de1f2a3b4c5d6".
Proof. reflexivity. Qed.

(** The loop adds the blocks of each question in turn. *)
Lemma pushQuestions_spec (questions : list Question) :
  forall index content,
    pushQuestions questions index content
    = content
      ++ flat_map (fun iq => questionBlocks (fst iq) (snd iq))
           (indexed index questions).
Proof.
  induction questions as [|q questions IH]; intros index content.
  - simpl. now rewrite app_nil_r.
  - cbn [pushQuestions]. rewrite IH, indexed_cons. simpl.
    now rewrite <- app_assoc.
Qed.

Lemma questionBlocks_count (questions : list Question) :
  forall index,
    let blocks :=
      flat_map (fun iq => questionBlocks (fst iq) (snd iq))
        (indexed index questions) in
    List.length blocks
    = 2 * List.length questions + List.length (filter hasOptions questions) /\
    filter isHeading3 blocks
    = map (fun iq => Heading3 (questionHeading (fst iq) (snd iq)))
        (indexed index questions).
Proof.
  induction questions as [|q questions IH]; intros index;
    [split; reflexivity|].
  rewrite indexed_cons. cbn [flat_map fst snd].
  destruct (IH (S index)) as [Hlen Hheadings].
  rewrite length_app, filter_app, Hheadings.
  unfold questionBlocks, optionsBlock, hasOptions in *. cbn [filter].
  destruct (options q) as [[|opt opts]|]; simpl in *; split;
    try reflexivity; lia.
Qed.

(** X21.  The form page opens with the title, the invitation and a
    divider.  Each question then gets a heading that carries its number,
    counted from 1, and its text, and a line with its kind, and between
    the two a list of its options when it has some; so the page has
    3 + 2n blocks, and one more for each question with options, and its
    headings are those of the questions, in order. *)
Theorem form_page_blocks (title : jsstring) (questions : list Question) :
  let content := createNotionFormPage_content title questions in
  firstn 3 content
  = [Heading1 title;
     Paragraph (js "Please fill out this survey form. Your responses will be recorded in our database.");
     Divider] /\
  List.length content
  = 3 + 2 * List.length questions + List.length (filter hasOptions questions) /\
  filter isHeading3 content
  = map (fun iq => Heading3 (questionHeading (fst iq) (snd iq)))
      (indexed 0 questions).
Proof.
  intros content. unfold content, createNotionFormPage_content.
  rewrite pushQuestions_spec. split; [reflexivity|].
  destruct (questionBlocks_count questions 0) as [Hlen Hheadings].
  rewrite length_app, filter_app, Hlen, Hheadings. split; reflexivity.
Qed.

(* ================================================================== *)
(** * The e-mail address and the telephone number of the respondent *)
(* ================================================================== *)

Import Respondent.

Lemma spanAddressChars_split (s : jsstring) :
  s = fst (spanAddressChars s) ++ snd (spanAddressChars s) /\
  Forall (fun c => isAddressChar c = true) (fst (spanAddressChars s)).
Proof.
  induction s as [|c s [IH1 IH2]]; simpl; [auto|].
  destruct (isAddressChar c) eqn:Ec; [|auto].
  destruct (spanAddressChars s) as [run rest]. simpl in *.
  split; [now f_equal | now constructor].
Qed.

Lemma spanAddressChars_run (name rest : jsstring) :
  Forall (fun c => isAddressChar c = true) name ->
  spanAddressChars (name ++ 64%N :: rest) = (name, 64%N :: rest).
Proof.
  induction 1 as [|c name Hc _ IH]; [reflexivity|].
  simpl. now rewrite Hc, IH.
Qed.

Lemma forallb_isAddressChar (s : jsstring) :
  forallb isAddressChar s = true
  <-> Forall (fun c => isAddressChar c = true) s.
Proof. now rewrite forallb_forall, Forall_forall. Qed.

Lemma validateEmail_sound (email : jsstring) :
  validateEmail email = true -> matchesEmailPattern email.
Proof.
  unfold validateEmail.
  destruct (spanAddressChars_split email) as [Esplit Hname].
  destruct (spanAddressChars email) as [[|c name] [|at_sign domain]];
    try discriminate.
  simpl in Esplit, Hname. rewrite !andb_true_iff.
  intros [[Hat Hdomain] Hdot]. apply N.eqb_eq in Hat as ->.
  apply forallb_isAddressChar in Hdomain.
  destruct domain as [|d0 tl]; [discriminate|]. simpl in Hdot.
  apply existsb_exists in Hdot as (x & Hx & Ex). apply N.eqb_eq in Ex as ->.
  destruct (in_split _ _ Hx) as (p & q & Etl).
  assert (Htl : tl <> []) by (intros ->; destruct p; discriminate).
  pose proof (app_removelast_last 0%N Htl) as Elast.
  rewrite Etl in Elast. remember (last tl 0%N) as l eqn:El. clear El.
  subst tl email. clear Hx Etl Htl.
  rewrite <- app_assoc.
  change (matchesEmailPattern
            ((c :: name) ++ js "@" ++ (d0 :: p) ++ js "." ++ (q ++ [l]))).
  inversion_clear Hdomain as [|? ? Hd0 Hrest].
  rewrite <- app_assoc in Hrest. simpl in Hrest.
  apply Forall_app in Hrest as [Hp Hq].
  inversion_clear Hq as [|? ? _ Hq'].
  apply matches_email; try discriminate; auto.
  destruct q; discriminate.
Qed.

(** X22.  [validateEmail] accepts exactly the strings made of a name, an
    at sign, and a domain in two parts with a dot between them, where
    the name and both parts are not empty and hold neither white space
    nor an at sign. *)
Theorem validateEmail_iff (email : jsstring) :
  validateEmail email = true <-> matchesEmailPattern email.
Proof.
  split; [apply validateEmail_sound|].
  intros [name part1 part2 Hname Hpart1 Hpart2 Hn H1 H2].
  unfold validateEmail. simpl. rewrite spanAddressChars_run by exact Hn.
  destruct name as [|c name]; [congruence|].
  rewrite N.eqb_refl. simpl.
  assert (Hall : forallb isAddressChar (part1 ++ 46%N :: part2) = true).
  { apply forallb_isAddressChar, Forall_app. split; [exact H1|].
    now constructor. }
  rewrite Hall. simpl.
  destruct part1 as [|d0 p]; [congruence|]. simpl.
  rewrite removelast_app by discriminate.
  rewrite existsb_app. simpl.
  destruct part2 as [|e part2]; [congruence|]. simpl.
  now rewrite orb_true_r.
Qed.

Lemma validateEmail_iff_witness :
  validateEmail (js "ada@example.org") = true /\
  ~ matchesEmailPattern (js "ada@example").
Proof.
  split.
  - apply (proj2 (validateEmail_iff (js "ada@example.org"))).
    apply (matches_email (js "ada") (js "example") (js "org"));
      try discriminate; repeat constructor.
  - intros H. apply (proj2 (validateEmail_iff (js "ada@example"))) in H.
    discriminate H.
Defined.

Lemma isAddressChar_inv (c : N) :
  isAddressChar c = true -> isWhiteSpace c = false /\ (c =? 64)%N = false.
Proof.
  unfold isAddressChar. rewrite andb_true_iff, !negb_true_iff. tauto.
Qed.

(** X23.  An address that [validateEmail] accepts has exactly one at
    sign and no white space, and is at least five characters long. *)
Theorem valid_email_shape (email : jsstring) :
  validateEmail email = true ->
  List.length (filter (fun c => (c =? 64)%N) email) = 1 /\
  Forall (fun c => isWhiteSpace c = false) email /\
  5 <= List.length email.
Proof.
  intros [name part1 part2 Hname Hpart1 Hpart2 Hn H1 H2]%validateEmail_sound.
  assert (Hcount : forall s, Forall (fun c => isAddressChar c = true) s ->
                             filter (fun c => (c =? 64)%N) s = []).
  { induction 1 as [|c s Hc _ IH]; simpl; [reflexivity|].
    apply isAddressChar_inv in Hc as [_ ->]. exact IH. }
  assert (Hspace : forall s, Forall (fun c => isAddressChar c = true) s ->
                             Forall (fun c => isWhiteSpace c = false) s).
  { intros s Hs. eapply Forall_impl; [|exact Hs].
    intros c Hc. now apply isAddressChar_inv in Hc. }
  split; [|split].
  - rewrite !filter_app, (Hcount name), (Hcount part1), (Hcount part2)
      by assumption. reflexivity.
  - repeat (apply Forall_app; split); auto; now repeat constructor.
  - rewrite !length_app. simpl.
    destruct name; [congruence|]. destruct part1; [congruence|].
    destruct part2; [congruence|]. simpl. lia.
Qed.

Lemma valid_email_shape_witness :
  List.length (filter (fun c => (c =? 64)%N) (js "ada@example.org")) = 1 /\
  Forall (fun c => isWhiteSpace c = false) (js "ada@example.org") /\
  5 <= List.length (js "ada@example.org").
Proof.
  apply valid_email_shape. reflexivity.
Defined.

(** The pattern asks little of the domain: a dot may end it. *)
Example validateEmail_examples :
  map validateEmail
    [js "a@b.c"; js "a@b.."; js "a@b"; js "a@.c"; js "a b@c.d"; js "a@b@c.d"]
  = [true; true; false; false; false; false].
Proof. reflexivity. Qed.






(** X25.  A valid number has ten or eleven digits and starts with 01;
    formatted, it is its first three digits, its next three or four
    digits and its last four digits, with a hyphen between them.  A
    number whose digits are neither ten nor eleven is left as typed. *)
Theorem valid_phone_format (phone : jsstring) :
  (validatePhone phone = true ->
   exists third middle line,
     digitsOnly phone = js "01" ++ third ++ middle ++ line /\
     formatPhone phone
     = js "01" ++ third ++ js "-" ++ middle ++ js "-" ++ line /\
     List.length third = 1 /\
     (List.length middle = 3 \/ List.length middle = 4) /\
     List.length line = 4) /\
  (List.length (digitsOnly phone) <> 10 ->
   List.length (digitsOnly phone) <> 11 ->
   formatPhone phone = phone).
Proof.
  split.
  - unfold validatePhone, formatPhone, isMobileNumber.
    destruct (digitsOnly phone) as [|c0 [|c1 [|c2 rest]]]; try discriminate.
    rewrite !andb_true_iff, orb_true_iff, !N.eqb_eq, !Nat.eqb_eq.
    intros [[[[-> ->] _] _] [Hlen|Hlen]];
      do 7 (destruct rest as [|? rest]; try discriminate Hlen).
    + destruct rest; [|discriminate Hlen].
      exists [c2], [n; n0; n1], [n2; n3; n4; n5]. repeat split. now left.
    + destruct rest as [|? [|]]; try discriminate Hlen.
      exists [c2], [n; n0; n1; n2], [n3; n4; n5; n6]. repeat split. now right.
  - intros H10 H11. unfold formatPhone.
    apply Nat.eqb_neq in H10, H11. now rewrite H10, H11.
Qed.

Lemma valid_phone_format_witness :
  (exists third middle line,
      digitsOnly (js "010 1234 5678") = js "01" ++ third ++ middle ++ line /\
      formatPhone (js "010 1234 5678")
      = js "01" ++ third ++ js "-" ++ middle ++ js "-" ++ line /\
      List.length third = 1 /\
      (List.length middle = 3 \/ List.length middle = 4) /\
      List.length line = 4) /\
  formatPhone (js "555-0100") = js "555-0100".
Proof.
  split.
  - apply (proj1 (valid_phone_format (js "010 1234 5678"))). reflexivity.
  - apply (proj2 (valid_phone_format (js "555-0100"))); discriminate.
Defined.

(* ================================================================== *)
(** * Filing and submitting the answers *)
(* ================================================================== *)

Import SurveyResponse Submission.

(** The position of a question can be read back from the key of its
    answer. *)
Lemma responseKey_index (i j : nat) (q q' : Question) :
  responseKey i q = responseKey j q' -> i = j.
Proof.
  unfold responseKey; simpl; intros E; injection E as E.
  apply digit_run_unique in E; try apply digits_isDigit.
  destruct E as [E _]. apply ToString_nat_inj in E. lia.
Qed.

(** X26.  An answer is filed under the key of its question, where it can
    be read, and filing it changes the answer to no other question of
    the survey; for a position beyond the last question nothing is
    filed. *)
Theorem answers_do_not_interfere (questions : list Question) (j : nat)
    (value : Value) (prev : Obj Value) :
  (forall q, nth_error questions j = Some q ->
     exists next,
       handleInputChange questions j value prev = Some next /\
       get (responseKey j q) next = Some value /\
       forall i q', i <> j -> nth_error questions i = Some q' ->
                    get (responseKey i q') next = get (responseKey i q') prev) /\
  (List.length questions <= j ->
   handleInputChange questions j value prev = None).
Proof.
  unfold handleInputChange. split.
  - intros q ->. eexists. split; [reflexivity|].
    split; [apply get_set_same|].
    intros i q' Hij _. apply get_set_other.
    intros E%responseKey_index. contradiction.
  - intros H%nth_error_None. now rewrite H.
Qed.

Lemma answers_do_not_interfere_witness :
  let questions :=
    [{| questionText := js "Your name"; type := TEXT; options := None;
        isRequired := true |};
     {| questionText := js "Red, green or blue?"; type := MULTIPLE_CHOICE;
        options := Some [js "Red"; js "Green"; js "Blue"];
        isRequired := false |}] in
  exists next,
    handleInputChange questions 1 (VString (js "Green"))
      [(js "Q1: Your name", VString (js "Ada"))]
    = Some next /\
    get (js "Q2: Red; green or blue?") next = Some (VString (js "Green")) /\
    get (js "Q1: Your name") next = Some (VString (js "Ada")).
Proof.
  intros questions.
  destruct (proj1 (answers_do_not_interfere questions 1
                     (VString (js "Green"))
                     [(js "Q1: Your name", VString (js "Ada"))])
              {| questionText := js "Red, green or blue?";
                 type := MULTIPLE_CHOICE;
                 options := Some [js "Red"; js "Green"; js "Blue"];
                 isRequired := false |})
    as (next & Hnext & Hfiled & Hothers).
  - reflexivity.
  - exists next. split; [exact Hnext | split; [exact Hfiled|]].
    apply (Hothers 0 {| questionText := js "Your name"; type := TEXT;
                        options := None; isRequired := true |});
      [discriminate | reflexivity].
Defined.

Lemma get_Some_In {V} (k : jsstring) (v : V) (o : Obj V) :
  get k o = Some v -> In (k, v) o.
Proof.
  induction o as [|[k' v'] o IH]; simpl; [discriminate|].
  destruct (str_eqb k k') eqn:E; [|auto].
  apply str_eqb_eq in E as ->. intros [= ->]; auto.
Qed.

Lemma get_Some_key {V} (k : jsstring) (v : V) (o : Obj V) :
  get k o = Some v -> In k (keys o).
Proof.
  intros H%get_Some_In. change k with (fst (k, v)). now apply in_map.
Qed.

(** What the loop over the keys leaves under a key. *)
Lemma get_copyAnswers (key : jsstring) (responses : Obj Value)
    (ks : list jsstring) :
  forall final,
    get key (copyAnswers ks responses final)
    = if isQuestionKey key && existsb (str_eqb key) ks
      then Some (property key responses)
      else get key final.
Proof.
  induction ks as [|k ks IH]; intros final; simpl.
  - now rewrite andb_false_r.
  - rewrite IH. destruct (str_eqb key k) eqn:E.
    + apply str_eqb_eq in E as <-. simpl. rewrite orb_true_r || idtac.
      destruct (isQuestionKey key) eqn:Eq; simpl.
      * destruct (existsb (str_eqb key) ks); [reflexivity|].
        apply get_set_same.
      * reflexivity.
    + simpl. destruct (isQuestionKey key && existsb (str_eqb key) ks);
        [reflexivity|].
      destruct (isQuestionKey k); [|reflexivity].
      apply get_set_other. now apply str_eqb_neq.
Qed.

Lemma copyAnswers_NoDup (responses : Obj Value) (ks : list jsstring) :
  forall final,
    NoDup (keys final) -> NoDup (keys (copyAnswers ks responses final)).
Proof.
  induction ks as [|k ks IH]; intros final H; simpl; [exact H|].
  apply IH. destruct (isQuestionKey k); [now apply NoDup_keys_set | exact H].
Qed.

Lemma existsb_str_eqb (key : jsstring) (ks : list jsstring) :
  existsb (str_eqb key) ks = true <-> In key ks.
Proof.
  rewrite existsb_exists. split.
  - intros (k & Hk & E). apply str_eqb_eq in E as ->. exact Hk.
  - intros H. exists key. now rewrite str_eqb_refl.
Qed.

(** X27.  What [handleSubmit] submits is made of the name, the e-mail
    address and the formatted telephone number of the respondent and of
    the answers filed under question keys; the other entries of its
    state are not sent.  The payload made of it always has the
    generated Response ID and the submission time, has the formatted
    telephone number as text, and has every answer to a question that is
    a string, a number, an array or a valid date. *)
Theorem submitted_payload (responses final : Obj Value) :
  finalResponses responses = Some final ->
  (forall key,
      In key (keys final)
      <-> key = js "Name" \/ key = js "Email" \/ key = js "Phone" \/
          (isQuestionKey key = true /\ In key (keys responses))) /\
  (forall now nowISO properties,
      submitNotionResponse_properties now nowISO final
      = Returned properties ->
      get (js "Response ID") properties
      = Some (TitleValue (js "Response-" ++ ToString_N now)) /\
      get (js "Submitted At") properties = Some (DateValue nowISO) /\
      (exists phone,
          get (js "respondentPhone") responses = Some (VString phone) /\
          get (js "Phone") properties
          = Some (RichTextValue (formatPhone phone))) /\
      (forall key value pv,
          isQuestionKey key = true ->
          get key responses = Some value ->
          propertyValueOf value = Some pv ->
          get key properties = Some pv)).
Proof.
  unfold finalResponses.
  destruct (property (js "respondentPhone") responses) as [| | | |phone| | |]
    eqn:Ephone; try discriminate.
  intros [= <-].
  set (named :=
         set (js "Phone") (VString (formatPhone phone))
           (set (js "Email") (property (js "respondentEmail") responses)
              (set (js "Name") (property (js "respondentName") responses)
                 []))).
  assert (Hget : forall key,
             get key (copyAnswers (keys responses) responses named)
             = if isQuestionKey key && existsb (str_eqb key) (keys responses)
               then Some (property key responses)
               else get key named)
    by (intros key; apply get_copyAnswers).
  assert (Hnd : NoDup (keys (copyAnswers (keys responses) responses named))).
  { apply copyAnswers_NoDup. unfold named.
    repeat constructor; simpl; intuition discriminate. }
  assert (Hkeys : forall key,
             In key (keys (copyAnswers (keys responses) responses named))
             <-> key = js "Name" \/ key = js "Email" \/ key = js "Phone" \/
                 (isQuestionKey key = true /\ In key (keys responses))).
  { intros key.
    destruct (get key (copyAnswers (keys responses) responses named))
      as [v|] eqn:Ev.
    - pose proof (get_Some_key _ _ Ev) as Hin. split; [intros _ | auto].
      rewrite Hget in Ev.
      destruct (isQuestionKey key && existsb (str_eqb key) (keys responses))
        eqn:Eq.
      + apply andb_true_iff in Eq as [Eq Ein].
        apply existsb_str_eqb in Ein. auto.
      + apply get_Some_key in Ev. unfold named in Ev. simpl in Ev.
        intuition.
    - split.
      + intros Hin. exfalso. revert Ev Hin. generalize (copyAnswers
          (keys responses) responses named). intros o.
        induction o as [|[k v] o IH]; simpl; [tauto|].
        destruct (str_eqb key k) eqn:E; [discriminate|].
        apply str_eqb_neq in E. intros Ev [E'|Hin]; [congruence | auto].
      + rewrite Hget in Ev. intros [->|[->|[->|[Hq Hin]]]];
          try discriminate Ev.
        apply existsb_str_eqb in Hin. rewrite Hq, Hin in Ev. discriminate Ev. }
  split; [exact Hkeys|].
  intros now nowISO properties Hres.
  unfold submitNotionResponse_properties in Hres.
  assert (Hfixed : forall key,
             isQuestionKey key = false ->
             key <> js "Name" -> key <> js "Email" -> key <> js "Phone" ->
             forall v,
               In (key, v) (copyAnswers (keys responses) responses named) ->
               isMapped v = false).
  { intros key Hq Hn He Hp v Hin. exfalso.
    assert (Hk : In key (keys (copyAnswers (keys responses) responses named)))
      by (change key with (fst (key, v)); now apply in_map).
    apply Hkeys in Hk. rewrite Hq in Hk. intuition discriminate. }
  split; [|split; [|split]].
  - rewrite (mapResponses_get_untouched _ _ (js "Response ID") Hres);
      [reflexivity|].
    apply Hfixed; [reflexivity | discriminate..].
  - rewrite (mapResponses_get_untouched _ _ (js "Submitted At") Hres);
      [reflexivity|].
    apply Hfixed; [reflexivity | discriminate..].
  - exists phone. split.
    + unfold property in Ephone.
      destruct (get (js "respondentPhone") responses) as [v|];
        [now rewrite Ephone | discriminate].
    + eapply mapResponses_get_answer;
        [exact Hres | exact Hnd
        | apply get_Some_In; rewrite Hget; reflexivity
        | discriminate | reflexivity].
  - intros key value pv Hq Hvalue Hpv.
    assert (Hin : existsb (str_eqb key) (keys responses) = true)
      by (apply existsb_str_eqb; eapply get_Some_key; exact Hvalue).
    eapply mapResponses_get_answer;
      [exact Hres | exact Hnd | | | exact Hpv].
    + apply get_Some_In. rewrite Hget, Hq, Hin. unfold property.
      now rewrite Hvalue.
    + intros ->. discriminate Hq.
Qed.

Lemma submitted_payload_witness :
  let responses :=
    [(js "respondentName", VString (js "Ada"));
     (js "respondentEmail", VString (js "ada@example.org"));
     (js "respondentPhone", VString (js "010 1234 5678"));
     (js "Q1: How satisfied are you?", VNumber 4)] in
  exists properties,
    submitNotionResponse_properties 1700000000000
      (js "2023-11-14T22:13:20.000Z")
      [(js "Name", VString (js "Ada"));
       (js "Email", VString (js "ada@example.org"));
       (js "Phone", VString (js "010-1234-5678"));
       (js "Q1: How satisfied are you?", VNumber 4)]
    = Returned properties /\
    get (js "Response ID") properties
    = Some (TitleValue (js "Response-1700000000000")) /\
    get (js "Q1: How satisfied are you?") properties = Some (NumberValue 4).
Proof.
  intros responses.
  destruct (@submitted_payload responses
              [(js "Name", VString (js "Ada"));
               (js "Email", VString (js "ada@example.org"));
               (js "Phone", VString (js "010-1234-5678"));
               (js "Q1: How satisfied are you?", VNumber 4)])
    as [_ Hpayload].
  - reflexivity.
  - eexists. split; [reflexivity|].
    edestruct Hpayload as (Hid & _ & _ & Hanswers); [reflexivity|].
    split; [exact Hid|].
    apply (Hanswers (js "Q1: How satisfied are you?") (VNumber 4));
      reflexivity.
Defined.

Lemma email_history_bounded_and_ranked_witness :
  let history :=
    fst (getEmailHistory
           (saveEmailToHistory (fun _ => Some 1704067200000%Z)
              (js "2024-01-01T00:00:00.000Z")
              [js "a@x.com"; js "b@x.com"; js "a@x.com"]
              {| formulateAiForms := None;
                 notion_survey_email_history := None |})) in
  List.length history <= 10 /\ StronglySorted usedAtLeastAsOften history.
Proof.
  intros history.
  destruct (@email_history_bounded_and_ranked (fun _ => Some 1704067200000%Z)
              (js "2024-01-01T00:00:00.000Z")
              [js "a@x.com"; js "b@x.com"; js "a@x.com"]
              {| formulateAiForms := None;
                 notion_survey_email_history := None |})
    as (Hlen & Hsorted & _).
  - discriminate.
  - simpl. constructor.
  - split; [exact Hlen | exact Hsorted].
Defined.
